(** * cybersec-web-hub: the article API and its browser client

    A shallow embedding of [backend/server.js] (the Express routes over
    the Mongoose [Article] model) and of the client script (rendering of
    the article cards, the read more / read less toggle, the page
    states), followed by the properties of the specification. *)

From Stdlib Require Import List Bool Arith NArith ZArith Lia String Ascii.
From Stdlib Require Import Permutation Sorted.
Import ListNotations.

Set Warnings "-register-all".

(** ** JavaScript strings

    A JavaScript string is a sequence of UTF-16 code units; [length],
    [substring], [trim] and [includes] all count and compare code
    units. *)

Module JsString.

Definition code_unit := N.
Definition jsstring := list code_unit.

(** A literal with ASCII text only. *)
Definition str (s : string) : jsstring :=
  map N_of_ascii (list_ascii_of_string s).

Definition eqb (s t : jsstring) : bool :=
  if list_eq_dec N.eq_dec s t then true else false.

(** [s.substring(0, n)] *)
Definition substring0 (n : nat) (s : jsstring) : jsstring := firstn n s.
Arguments substring0 : simpl never.

(** WhiteSpace and LineTerminator of ECMAScript, which [trim] strips. *)
Definition is_whitespace (c : code_unit) : bool :=
  ((9 <=? c) && (c <=? 13) || (c =? 32) || (c =? 160) || (c =? 5760)
   || (8192 <=? c) && (c <=? 8202) || (c =? 8232) || (c =? 8233)
   || (c =? 8239) || (c =? 8287) || (c =? 12288) || (c =? 65279))%N.

Fixpoint trimStart (s : jsstring) : jsstring :=
  match s with
  | [] => []
  | c :: r => if is_whitespace c then trimStart r else s
  end.

Fixpoint trimEnd (s : jsstring) : jsstring :=
  match s with
  | [] => []
  | c :: r =>
      match trimEnd r with
      | [] => if is_whitespace c then [] else [c]
      | r' => c :: r'
      end
  end.

Definition trim (s : jsstring) : jsstring := trimEnd (trimStart s).

Fixpoint startsWith (p s : jsstring) : bool :=
  match p, s with
  | [], _ => true
  | _ :: _, [] => false
  | a :: p', b :: s' => (a =? b)%N && startsWith p' s'
  end.

(** [s.includes(p)] *)
Fixpoint includes (p s : jsstring) : bool :=
  startsWith p s ||
  match s with
  | [] => false
  | _ :: r => includes p r
  end.

(** [toLowerCase], as far as a search for an ASCII word can tell: the
    letters A-Z, the Kelvin sign (to k) and the dotted capital I (to i
    and a combining dot) are the only code units whose lower case
    contains an ASCII letter; the others are left in place. *)
Definition lower_unit (c : code_unit) : jsstring :=
  if ((65 <=? c) && (c <=? 90))%N then [(c + 32)%N]
  else if (c =? 8490)%N then [107%N]
  else if (c =? 304)%N then [105%N; 775%N]
  else [c].

Definition toLowerCase (s : jsstring) : jsstring := flat_map lower_unit s.

End JsString.
Import JsString.

(** ** HTML text

    [escapeHtml] writes the text into a detached [div] through
    [textContent] and reads [innerHTML] back: the HTML fragment
    serialisation of a text node, which replaces [&], the no-break
    space, [<] and [>] by character references. *)

Module Html.

Definition amp : code_unit := 38%N.
Definition lt : code_unit := 60%N.
Definition gt : code_unit := 62%N.
Definition nbsp : code_unit := 160%N.

Definition escape_unit (c : code_unit) : jsstring :=
  if (c =? amp)%N then str "&amp;"
  else if (c =? nbsp)%N then str "&nbsp;"
  else if (c =? lt)%N then str "&lt;"
  else if (c =? gt)%N then str "&gt;"
  else [c].

Definition escapeHtml (text : jsstring) : jsstring := flat_map escape_unit text.

(** The character references [escapeHtml] emits, with the code unit
    each stands for. *)
Definition references : list (jsstring * code_unit) :=
  [ (str "&amp;", amp); (str "&nbsp;", nbsp); (str "&lt;", lt); (str "&gt;", gt) ].

Fixpoint reference_at (refs : list (jsstring * code_unit)) (s : jsstring)
  : option (nat * code_unit) :=
  match refs with
  | [] => None
  | (name, c) :: refs' =>
      if startsWith name s then Some (List.length name, c) else reference_at refs' s
  end.

(** The reading of the references [escapeHtml] writes: each of the
    four references, with its semicolon, is replaced by its code unit,
    and every other code unit stands for itself.  This is the inverse
    of [escapeHtml], and what the parser behind [innerHTML] builds from
    markup written by [escapeHtml] for a text with no carriage return
    and no NUL.  It is not that parser: the parser also turns a
    carriage return, alone or before a line feed, into a line feed,
    drops NUL, and reads [&amp], [&lt], [&gt] and [&nbsp] without their
    semicolon.  [skip] counts the code units of a reference still to
    be passed over. *)
Fixpoint text_from (skip : nat) (markup : jsstring) : jsstring :=
  match markup with
  | [] => []
  | c :: r =>
      match skip with
      | S k => text_from k r
      | O =>
          match reference_at references markup with
          | Some (n, d) => d :: text_from (Nat.pred n) r
          | None => c :: text_from 0 r
          end
      end
  end.

Definition textContent (markup : jsstring) : jsstring := text_from 0 markup.

(** Markup in which the text is fully escaped: no [<], no [>], no
    no-break space, and every [&] opens one of the four references. *)
Fixpoint escaped_from (skip : nat) (markup : jsstring) : bool :=
  match markup with
  | [] => true
  | c :: r =>
      match skip with
      | S k => escaped_from k r
      | O =>
          if (c =? amp)%N then
            match reference_at references markup with
            | Some (n, _) => escaped_from (Nat.pred n) r
            | None => false
            end
          else negb ((c =? lt)%N || (c =? gt)%N || (c =? nbsp)%N)
               && escaped_from 0 r
      end
  end.

Definition is_escaped (markup : jsstring) : bool := escaped_from 0 markup.

(** Text that [escapeHtml] leaves as it is. *)
Definition plain (text : jsstring) : bool :=
  forallb (fun c => negb ((c =? amp)%N || (c =? nbsp)%N || (c =? lt)%N || (c =? gt)%N))
          text.

(** Markup that cannot open or close a tag. *)
Definition tag_free (markup : jsstring) : bool :=
  forallb (fun c => negb ((c =? lt)%N || (c =? gt)%N)) markup.

End Html.
Import Html.

(** ** The backend: [backend/server.js] *)

Module Server.

(** *** JSON values of a request body *)

(** A parsed JSON value; [VUndefined] is what reading an absent
    property yields.  A number is a double, and the route and the
    schema see of it only what [Number.prototype.toString] prints
    ([9007199254740992] for 2^53+1, [1e+21] for 1e21, [0] for both
    zeros): [VNumber] carries that text. *)
Inductive value : Type :=
| VUndefined
| VNull
| VBool (b : bool)
| VNumber (printed : jsstring)
| VString (s : jsstring)
| VArray (items : list value)
| VObject (fields : list (jsstring * value)).

(** The members of a parsed object, in the order of the JSON text.
    The body of a request is one: [express.json()] hands the route an
    object (an array has neither of the properties the route reads
    and behaves as the empty object). *)
Definition object := list (jsstring * value).

(** [o[key]]: a repeated key keeps its last value, as [JSON.parse]
    has it, and an absent one reads as [undefined]. *)
Definition get (o : object) (key : jsstring) : value :=
  match find (fun kv => JsString.eqb (fst kv) key) (rev o) with
  | Some kv => snd kv
  | None => VUndefined
  end.

(** ToBoolean; [!v] is [negb (truthy v)]. *)
Definition truthy (v : value) : bool :=
  match v with
  | VUndefined | VNull => false
  | VBool b => b
  | VNumber printed => negb (JsString.eqb printed (str "0"))
  | VString [] => false
  | VString (_ :: _) => true
  | VArray _ | VObject _ => true
  end.

(** *** The Article schema (lines 25-41) and what Mongoose makes of it *)

Record SchemaString : Type := {
  required : bool;
  trim : bool;
  maxlength : option nat
}.

Definition title_path : SchemaString :=
  {| required := true; trim := true; maxlength := Some 200 |}.

Definition content_path : SchemaString :=
  {| required := true; trim := true; maxlength := None |}.

(** The state of a String path of a document: a cast that failed, an
    absent value, or a string. *)
Inductive path_value : Type :=
| CastError
| Nullish
| Str (s : jsstring).

(** Mongoose's cast to String: [null] and [undefined] stay as they are,
    an object that carries a string [_id] stands for it, whatever has a
    [toString] of its own is printed, arrays and plain objects are
    refused. *)
Definition castString (v : value) : path_value :=
  match v with
  | VUndefined | VNull => Nullish
  | VString s => Str s
  | VNumber printed => Str printed
  | VBool true => Str (str "true")
  | VBool false => Str (str "false")
  | VArray _ => CastError
  | VObject fields =>
      match get fields (str "_id") with
      | VString (c :: r) => Str (c :: r)
      | _ => CastError
      end
  end.

(** Assignment to a path: cast, then the [trim] setter. *)
Definition applySetters (p : SchemaString) (v : value) : path_value :=
  match castString v with
  | Str s => Str (if trim p then JsString.trim s else s)
  | other => other
  end.

(** The validators of a path, run by [save]: the cast must have
    succeeded, a required string must be non-empty, and the length is
    bounded by [maxlength]. *)
Definition validatePath (p : SchemaString) (x : path_value) : bool :=
  match x with
  | CastError => false
  | Nullish => negb (required p)
  | Str s =>
      (negb (required p) || negb (Nat.eqb (List.length s) 0))
      && match maxlength p with
         | Some m => List.length s <=? m
         | None => true
         end
  end.

(** A stored article. *)
Record Article : Type := {
  _id : N;
  title : jsstring;
  content : jsstring;
  date : Z
}.

(** The collection, in insertion order. *)
Definition store := list Article.

(** What a request finds around it: the clock ([Date.now]), the
    identifier the driver generates for a new document, and whether
    the database answers this request. *)
Record env : Type := {
  now : Z;
  fresh_id : N;
  db_ok : bool
}.

(** A document built by [new Article({ title, content })]; [date] is
    not given and takes its default, [Date.now]. *)
Record Document : Type := {
  doc_id : N;
  doc_title : path_value;
  doc_content : path_value;
  doc_date : Z
}.

Definition new_Article (e : env) (title content : value) : Document :=
  {| doc_id := fresh_id e;
     doc_title := applySetters title_path title;
     doc_content := applySetters content_path content;
     doc_date := now e |}.

Inductive error : Type :=
| ValidationError
| MongoError.

(** [doc.validate()]: every path of the schema passes its validators. *)
Definition validate (doc : Document) : bool :=
  validatePath title_path (doc_title doc)
  && validatePath content_path (doc_content doc).

(** [doc.save()]: validation, then the insertion, which the database
    refuses when it is unreachable or the identifier is taken.  A
    document that has passed validation holds a string on both paths,
    both being required. *)
Definition save (e : env) (doc : Document) (db : store)
  : error + (Article * store) :=
  if validate doc then
    match doc_title doc, doc_content doc with
    | Str t, Str c =>
        if db_ok e && negb (existsb (fun a => (_id a =? doc_id doc)%N) db) then
          let saved := {| _id := doc_id doc; title := t; content := c;
                          date := doc_date doc |} in
          inr (saved, db ++ [saved])
        else inl MongoError
    | _, _ => inl ValidationError
    end
  else inl ValidationError.

(** [Article.find().sort({ date: -1 })] *)
Fixpoint insert_desc (a : Article) (l : list Article) : list Article :=
  match l with
  | [] => [a]
  | b :: r => if (date b <=? date a)%Z then a :: l else b :: insert_desc a r
  end.

Definition sort_date_desc (l : list Article) : list Article :=
  fold_right insert_desc [] l.

Definition find_sorted (e : env) (db : store) : error + list Article :=
  if db_ok e then inr (sort_date_desc db) else inl MongoError.

(** *** Responses *)

Inductive json : Type :=
| Articles (success : bool) (count : nat) (data : list Article)
| Created (success : bool) (message : jsstring) (data : Article)
| Failure (success : bool) (message : jsstring)
| Health (status message : jsstring) (timestamp : Z)
| Welcome (message health articles : jsstring).

Record response : Type := {
  status : nat;
  body : json
}.

(** [res.json(b)] answers 200, [res.status(n).json(b)] answers [n]. *)
Definition res_json (b : json) : response := {| status := 200; body := b |}.
Definition res_status_json (n : nat) (b : json) : response :=
  {| status := n; body := b |}.

(** *** The routes *)

(** GET /api/health *)
Definition get_health (e : env) : response :=
  res_json (Health (str "OK") (str "Cybersecurity API is running") (now e)).

(** GET /api/articles (lines 55-70) *)
Definition get_articles (e : env) (db : store) : response * store :=
  match find_sorted e db with
  | inr articles =>
      (res_json (Articles true (List.length articles) articles), db)
  | inl _ =>
      (res_status_json 500
         (Failure false (str "Server error while fetching articles")), db)
  end.

(** POST /api/articles (lines 73-103) *)
Definition post_articles (e : env) (req_body : object) (db : store)
  : response * store :=
  let title := get req_body (str "title") in
  let content := get req_body (str "content") in
  if negb (truthy title) || negb (truthy content) then
    (res_status_json 400
       (Failure false (str "Title and content are required")), db)
  else
    let newArticle := new_Article e title content in
    match save e newArticle db with
    | inr (savedArticle, db') =>
        (res_status_json 201
           (Created true (str "Article created successfully") savedArticle), db')
    | inl _ =>
        (res_status_json 500
           (Failure false (str "Server error while creating article")), db)
    end.

(** GET / *)
Definition get_root : response :=
  res_json (Welcome (str "Welcome to Cybersecurity Web Hub API")
              (str "/api/health") (str "/api/articles")).

Inductive request : Type :=
| GET_health
| GET_articles
| POST_articles (req_body : object)
| GET_root.

Definition handle (e : env) (r : request) (db : store) : response * store :=
  match r with
  | GET_health => (get_health e, db)
  | GET_articles => get_articles e db
  | POST_articles b => post_articles e b db
  | GET_root => (get_root, db)
  end.

(** The server's life: requests served one after the other, each in
    its own environment. *)
Fixpoint serve (rs : list (env * request)) (db : store) : store :=
  match rs with
  | [] => db
  | (e, r) :: rs' => serve rs' (snd (handle e r db))
  end.

(** The invariant of the data model: title and content are non-empty
    after trimming and the title has at most 200 code units. *)
Definition valid_article (a : Article) : Prop :=
  JsString.trim (title a) <> [] /\
  JsString.trim (content a) <> [] /\
  List.length (title a) <= 200.

(** The order of the list: no article before a more recent one. *)
Definition newer_first (a b : Article) : Prop := (date b <= date a)%Z.

(** The database raises an error while a request is served: the query
    of the list route fails, or the insertion of the create route
    fails once the route has reached it and the document has passed
    validation. *)
Inductive database_raises (e : env) (db : store) : request -> Prop :=
| find_raises :
    find_sorted e db = inl MongoError ->
    database_raises e db GET_articles
| insert_raises (b : object) :
    truthy (get b (str "title")) = true ->
    truthy (get b (str "content")) = true ->
    save e (new_Article e (get b (str "title")) (get b (str "content"))) db
      = inl MongoError ->
    database_raises e db (POST_articles b).

(** The schema refuses the document of a create request: the route
    has reached [save], and validation fails before anything is sent
    to the database. *)
Inductive schema_refuses (e : env) (db : store) : request -> Prop :=
| validation_fails (b : object) :
    truthy (get b (str "title")) = true ->
    truthy (get b (str "content")) = true ->
    validate (new_Article e (get b (str "title")) (get b (str "content")))
      = false ->
    schema_refuses e db (POST_articles b).

(** A stored article whose title and content are already trimmed. *)
Definition trimmed_article (a : Article) : Prop :=
  JsString.trim (title a) = title a /\ JsString.trim (content a) = content a.

(** Whether a property of a request body is missing or the empty
    string. *)
Definition missing_or_empty (v : value) : bool :=
  match v with
  | VUndefined => true
  | VString [] => true
  | _ => false
  end.

End Server.
Import Server.

(** ** The browser client *)

Module Client.

(** *** Article cards *)

(** [getArticleIcon(title)] (lines 98-114); the emoji are written as
    their code units. *)
Definition getArticleIcon (title : jsstring) : jsstring :=
  let lowerTitle := toLowerCase title in
  if includes (str "password") lowerTitle || includes (str "auth") lowerTitle
  then [55357; 56592]%N
  else if includes (str "network") lowerTitle || includes (str "firewall") lowerTitle
  then [55356; 57104]%N
  else if includes (str "malware") lowerTitle || includes (str "virus") lowerTitle
  then [55358; 56736]%N
  else if includes (str "privacy") lowerTitle || includes (str "data") lowerTitle
  then [55357; 56522]%N
  else if includes (str "cloud") lowerTitle || includes (str "aws") lowerTitle
  then [9729; 65039]%N
  else if includes (str "social") lowerTitle || includes (str "media") lowerTitle
  then [55357; 56561]%N
  else if includes (str "email") lowerTitle || includes (str "phishing") lowerTitle
  then [55357; 56551]%N
  else [55357; 57057; 65039]%N.

(** [el.classList] *)
Definition classList := list jsstring.

Definition contains (l : classList) (c : jsstring) : bool :=
  existsb (JsString.eqb c) l.

Definition remove (l : classList) (c : jsstring) : classList :=
  filter (fun d => negb (JsString.eqb c d)) l.

Definition add (l : classList) (c : jsstring) : classList :=
  if contains l c then l else l ++ [c].

(** The [div.article-content] of a card.  [innerHTML] is the markup
    of its text; the indentation the template puts around the slot is
    left out, as rendering does. *)
Record content_element : Type := {
  classes : classList;
  innerHTML : jsstring
}.

(** The two faces of the button: [Read More] with a down arrow,
    [Read Less] with an up arrow. *)
Inductive label : Type :=
| Read_More
| Read_Less.

(** The [button.read-more-btn] of a card with its [data-full-content]
    attribute. *)
Record button_element : Type := {
  face : label;
  data_full_content : jsstring
}.

(** The element built from the template of lines 122-144: one field
    per slot of the template, in its order. *)
Record card : Type := {
  article_icon : jsstring;
  article_title : jsstring;
  article_content : content_element;
  article_date : Z;
  read_more_btn : option button_element
}.

Definition needsReadMore (article : Article) : bool :=
  200 <? List.length (content article).
Arguments needsReadMore : simpl never.

Definition shortContent (article : Article) : jsstring :=
  if needsReadMore article
  then substring0 200 (content article) ++ str "..."
  else content article.

(** [createArticleCard(article)] (lines 85-153) *)
Definition createArticleCard (article : Article) : card :=
  {| article_icon := getArticleIcon (title article);
     article_title := escapeHtml (title article);
     article_content :=
       {| classes :=
            str "article-content"
              :: (if needsReadMore article then [str "collapsed"] else []);
          innerHTML :=
            escapeHtml (if needsReadMore article then shortContent article
                        else content article) |};
     article_date := date article;
     read_more_btn :=
       if needsReadMore article
       then Some {| face := Read_More;
                    data_full_content := escapeHtml (content article) |}
       else None |}.

(** [toggleReadMore(button)] (lines 159-180), on the card that holds
    the button; a card without the button has nothing to click. *)
Definition toggleReadMore (c : card) : card :=
  match read_more_btn c with
  | None => c
  | Some button =>
      let articleContent := article_content c in
      let isCollapsed := contains (classes articleContent) (str "collapsed") in
      if isCollapsed then
        let fullContent := data_full_content button in
        {| article_icon := article_icon c;
           article_title := article_title c;
           article_content :=
             {| classes :=
                  add (remove (classes articleContent) (str "collapsed"))
                      (str "expanded");
                innerHTML := fullContent |};
           article_date := article_date c;
           read_more_btn :=
             Some {| face := Read_Less;
                     data_full_content := data_full_content button |} |}
      else
        let fullContent := data_full_content button in
        let shortContent := substring0 200 fullContent ++ str "..." in
        {| article_icon := article_icon c;
           article_title := article_title c;
           article_content :=
             {| classes :=
                  add (remove (classes articleContent) (str "expanded"))
                      (str "collapsed");
                innerHTML := shortContent |};
           article_date := article_date c;
           read_more_btn :=
             Some {| face := Read_More;
                     data_full_content := data_full_content button |} |}
  end.

(** [n] clicks on the button of a card. *)
Fixpoint toggles (n : nat) (c : card) : card :=
  match n with
  | O => c
  | S k => toggleReadMore (toggles k c)
  end.

(** The text the card shows for the content, as [textContent] reads
    the markup (line ends and NUL aside, see [text_from]). *)
Definition displayed (c : card) : jsstring :=
  textContent (innerHTML (article_content c)).

(** *** The page *)

(** [el.style.display] *)
Inductive display : Type :=
| none
| block
| grid.

Definition visible (d : display) : bool :=
  match d with
  | none => false
  | _ => true
  end.

(** The procedures of the script that act on the page. *)
Inductive procedure : Type :=
| P_setupEventListeners
| P_loadArticles
| P_displayArticles
| P_toggleReadMore
| P_handleArticleSubmit
| P_showAddArticleForm
| P_hideAddArticleForm
| P_showEmptyState
| P_showErrorState
| P_hideAllStates.

(** The page: the elements the script holds (lines 5-10), the alerts
    raised so far, and the trace of the procedures entered, latest
    first.  [loadingElement] is [None] when the page has no such
    element. *)
Record page : Type := {
  articlesList : display;
  articlesList_children : list card;
  loadingElement : option display;
  emptyState : display;
  errorState : display;
  addArticleForm : display;
  form_title : jsstring;
  form_content : jsstring;
  alerts : list jsstring;
  calls : list procedure
}.

(** Assignments to the parts of the page. *)
Definition with_calls (l : list procedure) (p : page) : page :=
  {| articlesList := articlesList p;
     articlesList_children := articlesList_children p;
     loadingElement := loadingElement p;
     emptyState := emptyState p;
     errorState := errorState p;
     addArticleForm := addArticleForm p;
     form_title := form_title p;
     form_content := form_content p;
     alerts := alerts p;
     calls := l |}.

Definition with_alerts (l : list jsstring) (p : page) : page :=
  {| articlesList := articlesList p;
     articlesList_children := articlesList_children p;
     loadingElement := loadingElement p;
     emptyState := emptyState p;
     errorState := errorState p;
     addArticleForm := addArticleForm p;
     form_title := form_title p;
     form_content := form_content p;
     alerts := l;
     calls := calls p |}.

Definition with_articlesList (d : display) (cards : list card) (p : page) : page :=
  {| articlesList := d;
     articlesList_children := cards;
     loadingElement := loadingElement p;
     emptyState := emptyState p;
     errorState := errorState p;
     addArticleForm := addArticleForm p;
     form_title := form_title p;
     form_content := form_content p;
     alerts := alerts p;
     calls := calls p |}.

Definition with_loadingElement (d : option display) (p : page) : page :=
  {| articlesList := articlesList p;
     articlesList_children := articlesList_children p;
     loadingElement := d;
     emptyState := emptyState p;
     errorState := errorState p;
     addArticleForm := addArticleForm p;
     form_title := form_title p;
     form_content := form_content p;
     alerts := alerts p;
     calls := calls p |}.

Definition with_emptyState (d : display) (p : page) : page :=
  {| articlesList := articlesList p;
     articlesList_children := articlesList_children p;
     loadingElement := loadingElement p;
     emptyState := d;
     errorState := errorState p;
     addArticleForm := addArticleForm p;
     form_title := form_title p;
     form_content := form_content p;
     alerts := alerts p;
     calls := calls p |}.

Definition with_errorState (d : display) (p : page) : page :=
  {| articlesList := articlesList p;
     articlesList_children := articlesList_children p;
     loadingElement := loadingElement p;
     emptyState := emptyState p;
     errorState := d;
     addArticleForm := addArticleForm p;
     form_title := form_title p;
     form_content := form_content p;
     alerts := alerts p;
     calls := calls p |}.

Definition with_addArticleForm (d : display) (p : page) : page :=
  {| articlesList := articlesList p;
     articlesList_children := articlesList_children p;
     loadingElement := loadingElement p;
     emptyState := emptyState p;
     errorState := errorState p;
     addArticleForm := d;
     form_title := form_title p;
     form_content := form_content p;
     alerts := alerts p;
     calls := calls p |}.

Definition with_form (title content : jsstring) (p : page) : page :=
  {| articlesList := articlesList p;
     articlesList_children := articlesList_children p;
     loadingElement := loadingElement p;
     emptyState := emptyState p;
     errorState := errorState p;
     addArticleForm := addArticleForm p;
     form_title := title;
     form_content := content;
     alerts := alerts p;
     calls := calls p |}.

Definition enter (f : procedure) (p : page) : page :=
  with_calls (f :: calls p) p.

Definition alert (message : jsstring) (p : page) : page :=
  with_alerts (message :: alerts p) p.

(** [hideAllStates()] (lines 279-287) *)
Definition hideAllStates (p0 : page) : page :=
  let p := enter P_hideAllStates p0 in
  let p :=
    match loadingElement p with
    | Some _ => with_loadingElement (Some none) p
    | None => p
    end in
  let p := with_emptyState none p in
  let p := with_errorState none p in
  with_articlesList none (articlesList_children p) p.

(** [showEmptyState()] (lines 263-266) *)
Definition showEmptyState (p0 : page) : page :=
  let p := hideAllStates (enter P_showEmptyState p0) in
  with_emptyState block p.

(** [showErrorState()] (lines 271-274) *)
Definition showErrorState (p0 : page) : page :=
  let p := hideAllStates (enter P_showErrorState p0) in
  with_errorState block p.

(** [displayArticles(articles)] (lines 60-78); [None] is an absent
    [articles]. *)
Definition displayArticles (articles : option (list Article)) (p0 : page) : page :=
  let p := hideAllStates (enter P_displayArticles p0) in
  match articles with
  | None | Some [] => showEmptyState p
  | Some l =>
      let p := with_articlesList (articlesList p) [] p in
      let p :=
        fold_left
          (fun q article =>
             let articleCard := createArticleCard article in
             with_articlesList (articlesList q)
               (articlesList_children q ++ [articleCard]) q)
          l p in
      with_articlesList grid (articlesList_children p) p
  end.

(** *** Talking to the API *)

(** The parsed body of an API response, as the script reads it:
    [success], [message] and [data]. *)
Record result : Type := {
  success : bool;
  message : option jsstring;
  data : option (list Article)
}.

(** How a [fetch] ends: it rejects, or it resolves with a response
    whose body parses ([Some]) or does not ([None]). *)
Inductive fetched : Type :=
| Rejected
| Resolved (ok : bool) (status : nat) (parsed : option result).

(** What the client receives for a response of the server. *)
Definition result_of (b : json) : result :=
  match b with
  | Articles s _ d => {| success := s; message := None; data := Some d |}
  | Created s m a => {| success := s; message := Some m; data := None |}
  | Failure s m => {| success := s; message := Some m; data := None |}
  | Health _ m _ => {| success := false; message := Some m; data := None |}
  | Welcome m _ _ => {| success := false; message := Some m; data := None |}
  end.

Definition fetched_of (r : response) : fetched :=
  Resolved ((200 <=? status r) && (status r <=? 299)) (status r)
           (Some (result_of (body r))).

(** The [try] block of [loadArticles] (lines 35-48): [inl] when it
    throws. *)
Definition try_loadArticles (f : fetched) (p : page) : unit + page :=
  match f with
  | Rejected => inl tt
  | Resolved ok _ parsed =>
      if negb ok then inl tt
      else
        match parsed with
        | None => inl tt
        | Some result =>
            if success result then
              match data result with
              | None => inl tt
              | Some d => inr (displayArticles (Some d) p)
              end
            else inl tt
        end
  end.

(** [loadArticles()] (lines 31-54).  The procedure is entered, waits
    for its [fetch], and goes on when the fetch has ended; it touches
    the page only after that. *)
Definition loadArticles_settled (f : fetched) (p : page) : page :=
  match try_loadArticles f p with
  | inr p' => p'
  | inl _ => showEmptyState p
  end.

Definition loadArticles (f : fetched) (p : page) : page :=
  loadArticles_settled f (enter P_loadArticles p).

(** The ways the fetch of the list fails: the request is rejected,
    the status is not OK, the body does not parse, or the envelope
    says [success: false]. *)
Definition list_fetch_failed (f : fetched) : bool :=
  match f with
  | Rejected => true
  | Resolved ok _ parsed =>
      negb ok ||
      match parsed with
      | None => true
      | Some result => negb (success result)
      end
  end.

(** [showAddArticleForm()] (lines 235-239) *)
Definition showAddArticleForm (p0 : page) : page :=
  with_addArticleForm block (enter P_showAddArticleForm p0).

(** [articleForm.reset()] *)
Definition reset (p : page) : page := with_form [] [] p.

(** [hideAddArticleForm()] (lines 244-247) *)
Definition hideAddArticleForm (p0 : page) : page :=
  reset (with_addArticleForm none (enter P_hideAddArticleForm p0)).

(** The body the form posts. *)
Definition form_body (title content : jsstring) : object :=
  [ (str "title", VString title); (str "content", VString content) ].

(** [handleArticleSubmit(event)] (lines 186-230), given how the POST
    ends and how the reload of the list ends.  [loadArticles] is not
    awaited: the alert comes before the list is drawn again. *)
Definition handleArticleSubmit (post reload : fetched) (p0 : page) : page :=
  let p := enter P_handleArticleSubmit p0 in
  let title := JsString.trim (form_title p) in
  let content := JsString.trim (form_content p) in
  match title, content with
  | [], _ | _, [] =>
      alert (str "Please fill in both title and content fields.") p
  | _, _ =>
      match post with
      | Resolved _ _ (Some result) =>
          if success result then
            loadArticles_settled reload
              (alert (str "Article published successfully!")
                 (enter P_loadArticles (hideAddArticleForm (reset p))))
          else alert (str "Error publishing article. Please try again.") p
      | _ => alert (str "Error publishing article. Please try again.") p
      end
  end.

(** A click on the button of the [i]-th card. *)
Fixpoint click (i : nat) (cards : list card) : list card :=
  match cards, i with
  | [], _ => []
  | c :: r, O => toggleReadMore c :: r
  | c :: r, S j => c :: click j r
  end.

Definition clickReadMore (i : nat) (p0 : page) : page :=
  let p := enter P_toggleReadMore p0 in
  with_articlesList (articlesList p) (click i (articlesList_children p)) p.

(** What happens to the page after it is parsed. *)
Inductive event : Type :=
| DOMContentLoaded (list_fetch : fetched)
| Submit (post reload : fetched)
| ClickReadMore (i : nat)
| ClickAddArticle
| ClickCancel
| Typed (title content : jsstring).

Definition step (ev : event) (p : page) : page :=
  match ev with
  | DOMContentLoaded f =>
      loadArticles_settled f
        (enter P_setupEventListeners (enter P_loadArticles p))
  | Submit post reload => handleArticleSubmit post reload p
  | ClickReadMore i => clickReadMore i p
  | ClickAddArticle => showAddArticleForm p
  | ClickCancel => hideAddArticleForm p
  | Typed t c => with_form t c p
  end.

Fixpoint run (evs : list event) (p : page) : page :=
  match evs with
  | [] => p
  | ev :: evs' => run evs' (step ev p)
  end.

(** The four states of the renderer and how many of them show. *)
Definition loading_shown (p : page) : bool :=
  match loadingElement p with
  | Some d => visible d
  | None => false
  end.

Definition shown_states (p : page) : list bool :=
  [ loading_shown p;
    visible (articlesList p);
    visible (emptyState p);
    visible (errorState p) ].

Definition visible_states (p : page) : nat :=
  List.length (filter (fun b => b) (shown_states p)).

(** Whether the POST of a submission is taken as a success: the body
    parses and its [success] is true.  The status of the response is
    not looked at. *)
Definition post_succeeded (post : fetched) : bool :=
  match post with
  | Resolved _ _ (Some result) => success result
  | _ => false
  end.

(** The eight icons of [getArticleIcon], in the order of its tests. *)
Definition icons : list jsstring :=
  [ [55357; 56592]; [55356; 57104]; [55358; 56736]; [55357; 56522];
    [9729; 65039]; [55357; 56561]; [55357; 56551]; [55357; 57057; 65039] ]%N.

(** The error state is hidden and [showErrorState] has not been
    entered. *)
Definition error_free (p : page) : Prop :=
  errorState p = none /\ ~ In P_showErrorState (calls p).

End Client.
Import Client.

(** ** Sample data *)

Module Sample.

(** A request served while the database answers, and one served while
    it does not. *)
Definition env_up : env :=
  {| now := 1762128000000; fresh_id := 1; db_ok := true |}.

Definition env_later : env :=
  {| now := 1762128060000; fresh_id := 2; db_ok := true |}.

Definition env_down : env :=
  {| now := 1762128000000; fresh_id := 1; db_ok := false |}.

(** The example of the specification: a title and 250 letters A. *)
Definition phishing_content : jsstring := repeat 65%N 250.

Definition phishing_body : object :=
  form_body (str "Phishing 101") phishing_content.

Definition phishing_article : Article :=
  {| _id := 1; title := str "Phishing 101"; content := phishing_content;
     date := 1762128000000 |}.

Definition short_article : Article :=
  {| _id := 2; title := str "Firewall basics"; content := str "Deny by default.";
     date := 1762128060000 |}.

(** An article whose content opens with an ampersand, and one with an
    ampersand as its 200th code unit. *)
Definition ampersand_article : Article :=
  {| _id := 3; title := str "Passwords & passphrases";
     content := amp :: repeat 65%N 249; date := 1762128120000 |}.

Definition cut_reference_article : Article :=
  {| _id := 4; title := str "Research & development";
     content := repeat 65%N 199 ++ amp :: repeat 65%N 60;
     date := 1762128180000 |}.

(** A body with no title, and one whose title is blank. *)
Definition untitled_body : object := [ (str "content", VString (str "text")) ].

Definition blank_title_body : object := form_body (str "   ") (str "text").

(** A page as it is before the script runs: the loading indicator
    shows, nothing else does. *)
Definition fresh_page : page :=
  {| articlesList := none;
     articlesList_children := [];
     loadingElement := Some block;
     emptyState := none;
     errorState := none;
     addArticleForm := none;
     form_title := [];
     form_content := [];
     alerts := [];
     calls := [] |}.

(** A body as a visitor may type it, with blanks around the text. *)
Definition padded_body : object :=
  form_body (str "  Firewall basics ") (str " Deny by default.  ").

Definition firewall_article : Article :=
  {| _id := 1; title := str "Firewall basics"; content := str "Deny by default.";
     date := 1762128000000 |}.

(** A request later than every sample article, and what it creates. *)
Definition env_last : env :=
  {| now := 1762128240000; fresh_id := 5; db_ok := true |}.

Definition last_article : Article :=
  {| _id := 5; title := str "Firewall basics"; content := str "Deny by default.";
     date := 1762128240000 |}.

(** A page on which the visitor has filled the form in. *)
Definition filled_page : page :=
  {| articlesList := none;
     articlesList_children := [];
     loadingElement := Some none;
     emptyState := block;
     errorState := none;
     addArticleForm := block;
     form_title := str "Firewall basics";
     form_content := str "Deny by default.";
     alerts := [];
     calls := [] |}.

(** A session: the page loads while the API is down, the visitor
    opens the form, fills it in and submits, the POST succeeds and the
    reload returns the two articles, then the visitor clicks on the
    button of the second card and closes the form. *)
Definition session : list event :=
  [ DOMContentLoaded (Resolved false 500 None);
    ClickAddArticle;
    Typed (str "Phishing 101") phishing_content;
    Submit (fetched_of {| status := 201;
                          body := Created true (str "Article created successfully")
                                          phishing_article |})
           (fetched_of {| status := 200;
                          body := Articles true 2 [short_article; phishing_article] |});
    ClickReadMore 1;
    ClickCancel ].

End Sample.
Import Sample.

(** ** Facts about strings *)

Section TrimFacts.

Lemma trimStart_head (s : jsstring) :
  match trimStart s with
  | [] => True
  | c :: _ => is_whitespace c = false
  end.
Proof.
  induction s as [|c r IH]; simpl; [exact I|].
  destruct (is_whitespace c) eqn:E; [exact IH | exact E].
Qed.

Lemma trimEnd_cons (c : code_unit) (r : jsstring) :
  is_whitespace c = false -> JsString.trimEnd (c :: r) = c :: JsString.trimEnd r.
Proof.
  intros H. simpl. rewrite H. destruct (JsString.trimEnd r); reflexivity.
Qed.

Lemma trimEnd_idempotent (s : jsstring) :
  JsString.trimEnd (JsString.trimEnd s) = JsString.trimEnd s.
Proof.
  induction s as [|c r IH]; [reflexivity|].
  simpl. destruct (JsString.trimEnd r) as [|x r'] eqn:E.
  - destruct (is_whitespace c) eqn:W; simpl; [reflexivity|]. now rewrite W.
  - change (JsString.trimEnd (c :: x :: r')) with
      (match JsString.trimEnd (x :: r') with
       | [] => if is_whitespace c then [] else [c]
       | r'' => c :: r''
       end).
    now rewrite IH.
Qed.

Lemma trim_idempotent (s : jsstring) :
  JsString.trim (JsString.trim s) = JsString.trim s.
Proof.
  unfold JsString.trim.
  pose proof (trimStart_head s) as H.
  destruct (trimStart s) as [|c r]; [reflexivity|].
  rewrite (trimEnd_cons c r H).
  simpl trimStart. rewrite H.
  rewrite (trimEnd_cons c _ H). now rewrite trimEnd_idempotent.
Qed.

End TrimFacts.

(** ** Facts about HTML text *)

Section EscapeFacts.

Lemma reference_at_other (refs : list (jsstring * code_unit))
      (c : code_unit) (r : jsstring) :
  Forall (fun nc => exists p, fst nc = amp :: p) refs ->
  (c =? amp)%N = false -> reference_at refs (c :: r) = None.
Proof.
  intros F H. induction F as [|[name d] refs [p Hp] F IH]; [reflexivity|].
  simpl in Hp. subst name. cbn [reference_at startsWith].
  rewrite N.eqb_sym in H. rewrite H. exact IH.
Qed.

Lemma reference_at_plain (c : code_unit) (r : jsstring) :
  (c =? amp)%N = false -> reference_at references (c :: r) = None.
Proof.
  apply reference_at_other.
  repeat constructor; eexists; reflexivity.
Qed.

Lemma text_from_escape_unit (c : code_unit) (rest : jsstring) :
  text_from 0 (escape_unit c ++ rest) = c :: text_from 0 rest.
Proof.
  unfold escape_unit.
  destruct (c =? amp)%N eqn:A; [apply N.eqb_eq in A; subst; reflexivity|].
  destruct (c =? nbsp)%N eqn:B; [apply N.eqb_eq in B; subst; reflexivity|].
  destruct (c =? lt)%N eqn:C; [apply N.eqb_eq in C; subst; reflexivity|].
  destruct (c =? gt)%N eqn:D; [apply N.eqb_eq in D; subst; reflexivity|].
  change ([c] ++ rest) with (c :: rest).
  cbn [text_from]. now rewrite (reference_at_plain c rest A).
Qed.

Lemma textContent_app_escapeHtml (s rest : jsstring) :
  text_from 0 (escapeHtml s ++ rest) = s ++ text_from 0 rest.
Proof.
  induction s as [|c r IH]; [reflexivity|].
  unfold escapeHtml in *. cbn [flat_map]. rewrite <- app_assoc.
  rewrite text_from_escape_unit. cbn [app]. now rewrite IH.
Qed.

(** Reading the text of escaped markup gives the text back. *)
Lemma textContent_escapeHtml (s : jsstring) :
  textContent (escapeHtml s) = s.
Proof.
  unfold textContent.
  rewrite <- (app_nil_r (escapeHtml s)), textContent_app_escapeHtml.
  apply app_nil_r.
Qed.

Lemma escaped_from_escape_unit (c : code_unit) (rest : jsstring) :
  escaped_from 0 (escape_unit c ++ rest) = escaped_from 0 rest.
Proof.
  unfold escape_unit.
  destruct (c =? amp)%N eqn:A; [apply N.eqb_eq in A; subst; reflexivity|].
  destruct (c =? nbsp)%N eqn:B; [apply N.eqb_eq in B; subst; reflexivity|].
  destruct (c =? lt)%N eqn:C; [apply N.eqb_eq in C; subst; reflexivity|].
  destruct (c =? gt)%N eqn:D; [apply N.eqb_eq in D; subst; reflexivity|].
  change ([c] ++ rest) with (c :: rest).
  cbn [escaped_from]. now rewrite A, B, C, D.
Qed.

(** What [escapeHtml] returns is escaped. *)
Lemma is_escaped_escapeHtml (s : jsstring) : is_escaped (escapeHtml s) = true.
Proof.
  unfold is_escaped.
  induction s as [|c r IH]; [reflexivity|].
  unfold escapeHtml in *. cbn [flat_map]. now rewrite escaped_from_escape_unit.
Qed.

Lemma tag_free_app (a b : jsstring) :
  tag_free (a ++ b) = tag_free a && tag_free b.
Proof. apply forallb_app. Qed.

Lemma tag_free_escape_unit (c : code_unit) : tag_free (escape_unit c) = true.
Proof.
  unfold escape_unit.
  destruct (c =? amp)%N; [reflexivity|].
  destruct (c =? nbsp)%N; [reflexivity|].
  destruct (c =? lt)%N eqn:C; [reflexivity|].
  destruct (c =? gt)%N eqn:D; [reflexivity|].
  unfold tag_free. simpl. now rewrite C, D.
Qed.

(** What [escapeHtml] returns holds no [<] and no [>]. *)
Lemma tag_free_escapeHtml (s : jsstring) : tag_free (escapeHtml s) = true.
Proof.
  induction s as [|c r IH]; [reflexivity|].
  unfold escapeHtml in *. cbn [flat_map].
  now rewrite tag_free_app, tag_free_escape_unit, IH.
Qed.

Lemma tag_free_substring0 (n : nat) (s : jsstring) :
  tag_free s = true -> tag_free (substring0 n s) = true.
Proof.
  unfold tag_free, substring0. revert n.
  induction s as [|c r IH]; intros [|n] H; simpl in *; try reflexivity.
  apply andb_true_iff in H. destruct H as [H1 H2].
  now rewrite H1, (IH n H2).
Qed.

End EscapeFacts.

(** ** Facts about the persistence layer *)

Section StoreFacts.

Lemma insert_desc_perm (a : Article) (l : list Article) :
  Permutation (a :: l) (insert_desc a l).
Proof.
  induction l as [|b r IH]; simpl; [reflexivity|].
  destruct (date b <=? date a)%Z; [reflexivity|].
  rewrite perm_swap. now apply perm_skip.
Qed.

Lemma sort_date_desc_perm (l : list Article) :
  Permutation l (sort_date_desc l).
Proof.
  induction l as [|a r IH]; simpl; [constructor|].
  rewrite <- insert_desc_perm. now apply perm_skip.
Qed.

Lemma insert_desc_sorted (a : Article) (l : list Article) :
  StronglySorted newer_first l -> StronglySorted newer_first (insert_desc a l).
Proof.
  induction 1 as [|b r Hs IH Hb]; simpl.
  - repeat constructor.
  - destruct (Z.leb_spec (date b) (date a)) as [Hle|Hgt].
    + constructor; [now constructor|].
      constructor; [exact Hle|].
      eapply Forall_impl; [|exact Hb].
      unfold newer_first. intros c Hc. lia.
    + constructor; [exact IH|].
      rewrite <- insert_desc_perm.
      constructor; [unfold newer_first; lia | exact Hb].
Qed.

Lemma sort_date_desc_sorted (l : list Article) :
  StronglySorted newer_first (sort_date_desc l).
Proof.
  induction l as [|a r IH]; simpl; [constructor|].
  now apply insert_desc_sorted.
Qed.

Lemma applySetters_trimmed (p : SchemaString) (v : value) (s : jsstring) :
  trim p = true -> applySetters p v = Str s -> JsString.trim s = s.
Proof.
  unfold applySetters. intros Ht H.
  destruct (castString v); try discriminate.
  rewrite Ht in H. injection H as <-. apply trim_idempotent.
Qed.

(** What [save] stores for a document built by the route. *)
Lemma save_new_Article (e : env) (t c : value) (db : store)
      (saved : Article) (db' : store) :
  save e (new_Article e t c) db = inr (saved, db') ->
  db' = db ++ [saved] /\
  applySetters title_path t = Str (title saved) /\
  applySetters content_path c = Str (content saved) /\
  date saved = now e /\
  _id saved = fresh_id e /\
  title saved <> [] /\ content saved <> [] /\
  List.length (title saved) <= 200.
Proof.
  unfold save, validate, new_Article.
  cbn [doc_title doc_content doc_id doc_date].
  destruct (validatePath title_path (applySetters title_path t)
            && validatePath content_path (applySetters content_path c))
    eqn:V; [|discriminate].
  destruct (applySetters title_path t) as [| |st]; try discriminate.
  destruct (applySetters content_path c) as [| |sc]; try discriminate.
  destruct (db_ok e && _); [|discriminate].
  intros H. injection H as <- <-. cbn.
  apply andb_true_iff in V. destruct V as [Vt Vc].
  unfold validatePath, title_path, content_path in Vt, Vc. cbn in Vt, Vc.
  apply andb_true_iff in Vt. destruct Vt as [Vt1 Vt2].
  apply Nat.leb_le in Vt2.
  repeat split; try reflexivity; try exact Vt2.
  - intros ->. discriminate.
  - intros ->. discriminate.
Qed.

(** When the persistence layer accepts a title and a content given as
    strings: both are non-empty once trimmed, the trimmed title has at
    most 200 code units, the database answers and the identifier is
    new.  The saved record then holds the trimmed strings. *)
Lemma save_accepts (e : env) (t c : jsstring) (db : store) :
  JsString.trim t <> [] ->
  List.length (JsString.trim t) <= 200 ->
  JsString.trim c <> [] ->
  db_ok e = true ->
  existsb (fun a => (_id a =? fresh_id e)%N) db = false ->
  save e (new_Article e (VString t) (VString c)) db =
    let saved := {| _id := fresh_id e; title := JsString.trim t;
                    content := JsString.trim c; date := now e |} in
    inr (saved, db ++ [saved]).
Proof.
  intros Nt Lt Nc Up Fresh.
  unfold save, validate, new_Article, applySetters.
  cbn [castString doc_title doc_content doc_id doc_date title_path content_path
       trim validatePath required maxlength negb orb].
  destruct (JsString.trim t) as [|x t'] eqn:Et; [contradiction|].
  destruct (JsString.trim c) as [|y c'] eqn:Ec; [contradiction|].
  cbn [List.length Nat.eqb negb andb].
  apply Nat.leb_le in Lt. cbn [List.length] in Lt. rewrite Lt.
  rewrite Up, Fresh. reflexivity.
Qed.

Lemma save_new_Article_valid (e : env) (t c : value) (db : store)
      (saved : Article) (db' : store) :
  save e (new_Article e t c) db = inr (saved, db') ->
  db' = db ++ [saved] /\ valid_article saved.
Proof.
  intros H. apply save_new_Article in H.
  destruct H as (Hdb & Ht & Hc & _ & _ & Nt & Nc & Len).
  split; [exact Hdb|]. unfold valid_article.
  rewrite (applySetters_trimmed title_path t _ eq_refl Ht).
  rewrite (applySetters_trimmed content_path c _ eq_refl Hc).
  auto.
Qed.

Lemma post_articles_store (e : env) (b : object) (db : store) :
  snd (post_articles e b db) = db \/
  exists a, snd (post_articles e b db) = db ++ [a] /\ valid_article a.
Proof.
  unfold post_articles.
  destruct (negb (truthy _) || negb (truthy _)); [now left|].
  destruct (save e _ db) as [err|[saved db']] eqn:S; [now left|].
  right. exists saved. apply save_new_Article_valid in S.
  destruct S as [-> V]. auto.
Qed.

Lemma get_articles_store (e : env) (db : store) : snd (get_articles e db) = db.
Proof. unfold get_articles. now destruct (find_sorted e db). Qed.

Lemma handle_valid (e : env) (r : request) (db : store) :
  Forall valid_article db -> Forall valid_article (snd (handle e r db)).
Proof.
  intros Inv. destruct r as [| |b|]; cbn [handle snd]; try exact Inv.
  - now rewrite get_articles_store.
  - destruct (post_articles_store e b db) as [->|(a & -> & Va)]; [exact Inv|].
    apply Forall_app. split; [exact Inv|]. now constructor.
Qed.

(** Whatever the requests served since the collection was empty, the
    store satisfies the invariant. *)
Lemma served_store_valid (rs : list (env * request)) (db : store) :
  Forall valid_article db -> Forall valid_article (serve rs db).
Proof.
  revert db. induction rs as [|[e r] rs IH]; intros db Inv; [exact Inv|].
  cbn [serve]. apply IH. now apply handle_valid.
Qed.

End StoreFacts.

(** ** The API *)

Section Api.

(** C1: a POST /api/articles whose body has a missing or empty [title],
    or a missing or empty [content], is answered 400 with the envelope
    [{success: false, message}], and the store is left as it was. *)
Theorem post_articles_rejects_missing_fields
        (e : env) (req_body : object) (db : store) :
  missing_or_empty (get req_body (str "title")) = true \/
  missing_or_empty (get req_body (str "content")) = true ->
  post_articles e req_body db =
    ({| status := 400;
        body := Failure false (str "Title and content are required") |}, db).
Proof.
  intros H. unfold post_articles.
  assert (F : negb (truthy (get req_body (str "title")))
              || negb (truthy (get req_body (str "content"))) = true).
  { apply orb_true_iff.
    destruct H as [H|H]; [left|right];
      destruct (get req_body _) as [| | | |[|]| |]; try discriminate; reflexivity. }
  now rewrite F.
Qed.

Lemma post_articles_rejects_missing_fields_witness :
  (missing_or_empty (get untitled_body (str "title")) = true \/
   missing_or_empty (get untitled_body (str "content")) = true) /\
  post_articles env_up untitled_body [short_article] =
    ({| status := 400;
        body := Failure false (str "Title and content are required") |},
     [short_article]).
Proof.
  split.
  - left. reflexivity.
  - apply (post_articles_rejects_missing_fields env_up untitled_body [short_article]).
    left. reflexivity.
Defined.

(** C2: a POST /api/articles with a non-empty [title] and a non-empty
    [content] that the persistence layer accepts stores exactly one new
    article, dated with the clock of the server, and is answered 201
    with an envelope that carries the saved record. *)
Theorem post_articles_creates
        (e : env) (req_body : object) (db : store)
        (saved : Article) (db' : store) :
  truthy (get req_body (str "title")) = true ->
  truthy (get req_body (str "content")) = true ->
  save e (new_Article e (get req_body (str "title"))
                        (get req_body (str "content"))) db
    = inr (saved, db') ->
  post_articles e req_body db =
    ({| status := 201;
        body := Created true (str "Article created successfully") saved |}, db')
  /\ db' = db ++ [saved]
  /\ date saved = now e.
Proof.
  intros Ht Hc S. unfold post_articles. rewrite Ht, Hc, S. cbn.
  apply save_new_Article in S. destruct S as (Hdb & _ & _ & Hd & _).
  auto.
Qed.

Lemma post_articles_creates_witness :
  (truthy (get phishing_body (str "title")) = true
   /\ truthy (get phishing_body (str "content")) = true
   /\ save env_up (new_Article env_up (get phishing_body (str "title"))
                                      (get phishing_body (str "content"))) []
      = inr (phishing_article, [phishing_article]))
  /\ (post_articles env_up phishing_body [] =
        ({| status := 201;
            body := Created true (str "Article created successfully")
                            phishing_article |},
         [phishing_article])
      /\ [phishing_article] = [] ++ [phishing_article]
      /\ date phishing_article = now env_up).
Proof.
  split.
  - repeat split; vm_compute; reflexivity.
  - apply (post_articles_creates env_up phishing_body [] phishing_article
                                 [phishing_article]);
      vm_compute; reflexivity.
Defined.

(** C3: every operation preserves the invariant of the store (title
    and content non-empty after trimming, title of at most 200 code
    units); the list route leaves the store as it is, and the create
    route adds nothing but one article that satisfies the invariant. *)
Theorem store_invariant_preserved (e : env) (r : request) (db : store) :
  Forall valid_article db ->
  Forall valid_article (snd (handle e r db))
  /\ snd (get_articles e db) = db
  /\ (forall b, snd (post_articles e b db) = db \/
                exists a, snd (post_articles e b db) = db ++ [a]
                          /\ valid_article a).
Proof.
  intros Inv. split; [|split].
  - now apply handle_valid.
  - apply get_articles_store.
  - intros b. apply post_articles_store.
Qed.

Lemma store_invariant_preserved_witness :
  Forall valid_article [short_article]
  /\ Forall valid_article
        (snd (handle env_up (POST_articles phishing_body) [short_article]))
  /\ snd (get_articles env_up [short_article]) = [short_article]
  /\ (forall b,
        snd (post_articles env_up b [short_article]) = [short_article] \/
        exists a,
          snd (post_articles env_up b [short_article]) = [short_article] ++ [a]
          /\ valid_article a).
Proof.
  assert (V : Forall valid_article [short_article]).
  { constructor; [|constructor].
    unfold valid_article. repeat split.
    - vm_compute. discriminate.
    - vm_compute. discriminate.
    - vm_compute. lia. }
  split; [exact V|].
  exact (store_invariant_preserved env_up (POST_articles phishing_body)
                                   [short_article] V).
Defined.

(** C4: GET /api/articles answers with the envelope
    [{success: true, count, data}], where [data] holds exactly the
    stored articles, the most recent first, and [count] is the number
    of stored documents, which is the length of [data]. *)
Theorem get_articles_lists_store (e : env) (db : store) :
  db_ok e = true ->
  exists data,
    get_articles e db =
      ({| status := 200; body := Articles true (List.length db) data |}, db)
    /\ Permutation db data
    /\ StronglySorted newer_first data
    /\ List.length data = List.length db.
Proof.
  intros Up. exists (sort_date_desc db).
  pose proof (sort_date_desc_perm db) as P.
  unfold get_articles, find_sorted. rewrite Up.
  rewrite <- (Permutation_length P).
  repeat split; [exact P | apply sort_date_desc_sorted].
Qed.

Lemma get_articles_lists_store_witness :
  db_ok env_later = true
  /\ exists data,
       get_articles env_later [phishing_article; short_article] =
         ({| status := 200; body := Articles true 2 data |},
          [phishing_article; short_article])
       /\ Permutation [phishing_article; short_article] data
       /\ StronglySorted newer_first data
       /\ List.length data = 2.
Proof.
  split; [reflexivity|].
  apply (get_articles_lists_store env_later [phishing_article; short_article]).
  reflexivity.
Defined.

Lemma save_refused (e : env) (t c : value) (db : store) :
  save e (new_Article e t c) db = inl ValidationError <->
  validate (new_Article e t c) = false.
Proof.
  unfold save. destruct (validate (new_Article e t c)) eqn:V.
  - split; [|discriminate]. unfold validate in V.
    destruct (doc_title (new_Article e t c)) as [| |st]; try discriminate.
    destruct (doc_content (new_Article e t c)) as [| |sc];
      try (rewrite andb_comm in V; discriminate).
    destruct (db_ok e && _); discriminate.
  - split; reflexivity.
Qed.

(** C5, as the claim states it, fails: a title of three spaces passes
    the test of the route and is refused by the validation of the
    schema, so the answer is 500 although the database answers and has
    raised nothing. *)
Lemma blank_title_500_without_database_error :
  status (fst (handle env_up (POST_articles blank_title_body) [])) = 500
  /\ db_ok env_up = true
  /\ ~ database_raises env_up [] (POST_articles blank_title_body).
Proof.
  split; [reflexivity|split; [reflexivity|]].
  intros H. inversion H; subst.
  match goal with
  | S : save _ _ _ = inl MongoError |- _ => vm_compute in S; discriminate S
  end.
Qed.

(** C5: when the database raises an error, the list route and the
    create route answer 500 with the envelope
    [{success: false, message}], the message being the fixed one of the
    route, and the store is left as it was; the create route answers
    the same when the schema refuses the document (a title or content
    that is blank once trimmed, a title of more than 200 code units, a
    value that does not cast to a string); and a 500 is answered only
    in these two cases. *)
Theorem server_error_iff_500 (e : env) (r : request) (db : store) :
  (database_raises e db r \/ schema_refuses e db r ->
   handle e r db =
     ({| status := 500;
         body := Failure false
                   (match r with
                    | POST_articles _ => str "Server error while creating article"
                    | _ => str "Server error while fetching articles"
                    end) |}, db))
  /\ (status (fst (handle e r db)) = 500 ->
      database_raises e db r \/ schema_refuses e db r).
Proof.
  split.
  - intros [[H | b Ht Hc H] | [b Ht Hc H]]; cbn [handle].
    + unfold get_articles. now rewrite H.
    + unfold post_articles. now rewrite Ht, Hc, H.
    + apply save_refused with (db := db) in H.
      unfold post_articles. now rewrite Ht, Hc, H.
  - destruct r as [| |b|]; cbn [handle]; try discriminate.
    + unfold get_articles.
      destruct (find_sorted e db) as [err|l] eqn:F; [|discriminate].
      intros _. left. apply find_raises.
      unfold find_sorted in *. now destruct (db_ok e).
    + unfold post_articles.
      destruct (truthy (get b (str "title"))) eqn:Ht; [|discriminate].
      destruct (truthy (get b (str "content"))) eqn:Hc; [|discriminate].
      cbn [negb orb].
      destruct (save e _ db) as [[|]|[saved db']] eqn:S; [| |discriminate];
        intros _.
      * right. apply validation_fails; [exact Ht | exact Hc|].
        now apply save_refused in S.
      * left. now apply insert_raises.
Qed.

Lemma server_error_iff_500_witness :
  (database_raises env_down [short_article] (POST_articles phishing_body)
   /\ handle env_down (POST_articles phishing_body) [short_article] =
        ({| status := 500;
            body := Failure false (str "Server error while creating article") |},
         [short_article]))
  /\ (status (fst (handle env_up (POST_articles blank_title_body) [])) = 500
      /\ (database_raises env_up [] (POST_articles blank_title_body)
          \/ schema_refuses env_up [] (POST_articles blank_title_body))).
Proof.
  assert (R : database_raises env_down [short_article]
                              (POST_articles phishing_body))
    by (apply insert_raises; vm_compute; reflexivity).
  split; split.
  - exact R.
  - apply (server_error_iff_500 env_down (POST_articles phishing_body)
                                [short_article]).
    left. exact R.
  - reflexivity.
  - apply (server_error_iff_500 env_up (POST_articles blank_title_body) []).
    reflexivity.
Defined.

End Api.

(** ** The article cards *)

Section Cards.

Lemma escapeHtml_plain (s : jsstring) : plain s = true -> escapeHtml s = s.
Proof.
  induction s as [|c r IH]; [reflexivity|].
  unfold plain in *. cbn [forallb]. intros H.
  apply andb_true_iff in H. destruct H as [Hc Hr].
  unfold escapeHtml in *. cbn [flat_map]. rewrite (IH Hr).
  apply negb_true_iff in Hc.
  apply orb_false_iff in Hc. destruct Hc as [Hc Hgt].
  apply orb_false_iff in Hc. destruct Hc as [Hc Hlt].
  apply orb_false_iff in Hc. destruct Hc as [Hamp Hnbsp].
  unfold escape_unit. now rewrite Hamp, Hnbsp, Hlt, Hgt.
Qed.

Lemma plain_app (a b : jsstring) : plain (a ++ b) = plain a && plain b.
Proof. apply forallb_app. Qed.

Lemma plain_substring0 (n : nat) (s : jsstring) :
  plain s = true -> plain (substring0 n s) = true.
Proof.
  unfold plain, substring0. revert n.
  induction s as [|c r IH]; intros [|n] H; simpl in *; try reflexivity.
  apply andb_true_iff in H. destruct H as [H1 H2].
  now rewrite H1, (IH n H2).
Qed.

Lemma length_substring0 (n : nat) (s : jsstring) :
  n <= List.length s -> List.length (substring0 n s) = n.
Proof. intros H. unfold substring0. rewrite length_firstn. lia. Qed.

(** The first click shows the whole content. *)
Lemma toggleReadMore_expands (a : Article) :
  needsReadMore a = true ->
  displayed (toggleReadMore (createArticleCard a)) = content a.
Proof.
  intros H. unfold displayed, toggleReadMore, createArticleCard.
  rewrite H. cbn. apply textContent_escapeHtml.
Qed.

(** No click changes the title, the icon, or the content kept on the
    button. *)
Lemma toggleReadMore_keeps (c : card) :
  article_title (toggleReadMore c) = article_title c /\
  article_icon (toggleReadMore c) = article_icon c /\
  option_map data_full_content (read_more_btn (toggleReadMore c))
    = option_map data_full_content (read_more_btn c).
Proof.
  unfold toggleReadMore.
  destruct (read_more_btn c) as [b|] eqn:B; [|rewrite B; auto].
  destruct (contains _ _); cbn; auto.
Qed.

Lemma toggles_keep (n : nat) (c : card) :
  article_title (toggles n c) = article_title c /\
  option_map data_full_content (read_more_btn (toggles n c))
    = option_map data_full_content (read_more_btn c).
Proof.
  induction n as [|n [IH1 IH2]]; [auto|].
  cbn [toggles].
  destruct (toggleReadMore_keeps (toggles n c)) as (H1 & _ & H3).
  split; congruence.
Qed.

(** Whatever the clicks, the markup of the content holds no tag. *)
Lemma toggles_tag_free (n : nat) (a : Article) :
  tag_free (innerHTML (article_content (toggles n (createArticleCard a)))) = true.
Proof.
  induction n as [|n IH].
  - cbn. apply tag_free_escapeHtml.
  - cbn [toggles]. unfold toggleReadMore.
    destruct (read_more_btn (toggles n (createArticleCard a))) as [b|] eqn:B;
      [|exact IH].
    assert (D : data_full_content b = escapeHtml (content a)).
    { destruct (toggles_keep n (createArticleCard a)) as [_ K].
      rewrite B in K. unfold createArticleCard in K. cbn [read_more_btn] in K.
      destruct (needsReadMore a); cbn [option_map data_full_content] in K;
        [|discriminate].
      now injection K. }
    destruct (contains _ _); cbn [innerHTML article_content]; rewrite D.
    + apply tag_free_escapeHtml.
    + rewrite tag_free_app, tag_free_substring0; [reflexivity|].
      apply tag_free_escapeHtml.
Qed.

(** The markup after two clicks: the escaped content cut at 200 code
    units, where the new card held the escaped cut of the content. *)
Lemma toggle_twice_markup (a : Article) :
  needsReadMore a = true ->
  innerHTML (article_content (createArticleCard a))
    = escapeHtml (substring0 200 (content a) ++ str "...")
  /\ innerHTML (article_content (toggles 2 (createArticleCard a)))
    = substring0 200 (escapeHtml (content a)) ++ str "...".
Proof.
  intros H. unfold toggles, toggleReadMore, createArticleCard, shortContent.
  rewrite H. cbn. split; reflexivity.
Qed.

(** On content that needs no escaping, two clicks give the first card
    back. *)
Lemma toggle_twice_plain (a : Article) :
  needsReadMore a = true -> plain (content a) = true ->
  toggles 2 (createArticleCard a) = createArticleCard a.
Proof.
  intros H P. unfold toggles, toggleReadMore, createArticleCard, shortContent.
  rewrite H. cbn.
  rewrite (escapeHtml_plain _ P).
  change [46; 46; 46]%N with (str "...").
  rewrite (escapeHtml_plain (substring0 200 (content a) ++ str "...")).
  - reflexivity.
  - rewrite plain_app, plain_substring0; [reflexivity | exact P].
Qed.

(** C6: a card has no read more control when the content has at most
    200 code units and has one when it has more; in that case the text
    first shown is the first 200 code units followed by three dots,
    203 code units in all.  The example of the specification: the
    article created from the title [Phishing 101] and 250 letters A
    comes back in the list with a content of length 250, and its card
    shows 203 code units. *)
Theorem read_more_control (a : Article) :
  read_more_btn (createArticleCard a) =
    (if 200 <? List.length (content a)
     then Some {| face := Read_More;
                  data_full_content := escapeHtml (content a) |}
     else None)
  /\ displayed (createArticleCard a) =
       (if 200 <? List.length (content a)
        then substring0 200 (content a) ++ str "..."
        else content a)
  /\ List.length (displayed (createArticleCard a)) =
       (if 200 <? List.length (content a) then 203 else List.length (content a))
  /\ (let (created, db) := post_articles env_up phishing_body [] in
      let (listed, _) := get_articles env_later db in
      status created = 201
      /\ exists article,
           body listed = Articles true 1 [article]
           /\ title article = str "Phishing 101"
           /\ List.length (content article) = 250
           /\ List.length (displayed (createArticleCard article)) = 203).
Proof.
  assert (D : displayed (createArticleCard a) =
              (if 200 <? List.length (content a)
               then substring0 200 (content a) ++ str "..."
               else content a)).
  { unfold displayed, createArticleCard, shortContent.
    cbn [innerHTML article_content]. rewrite textContent_escapeHtml.
    unfold needsReadMore. now destruct (200 <? List.length (content a)). }
  split; [|split; [exact D|split]].
  - unfold createArticleCard, needsReadMore. cbn [read_more_btn].
    now destruct (200 <? List.length (content a)).
  - rewrite D. destruct (Nat.ltb_spec 200 (List.length (content a))) as [L|L];
      [|reflexivity].
    rewrite length_app, length_substring0 by lia. reflexivity.
  - vm_compute. split; [reflexivity|].
    eexists. repeat split.
Qed.

End Cards.

(** ** The toggle *)

Section Toggle.

(** The markup of a new card, and the markup after the first click,
    are escaped text. *)
Lemma card_markup_escaped (a : Article) :
  is_escaped (article_title (createArticleCard a)) = true /\
  is_escaped (innerHTML (article_content (createArticleCard a))) = true /\
  is_escaped (innerHTML (article_content (toggles 1 (createArticleCard a)))) = true.
Proof.
  split; [|split].
  - apply is_escaped_escapeHtml.
  - apply is_escaped_escapeHtml.
  - unfold toggles, toggleReadMore, createArticleCard.
    cbn [read_more_btn article_content classes].
    destruct (needsReadMore a).
    + cbn. apply is_escaped_escapeHtml.
    + cbn [innerHTML article_content]. apply is_escaped_escapeHtml.
Qed.

(** C7: the round trip of the toggle fails on the article whose
    content is an ampersand followed by 249 letters A.  The first click
    shows the whole content and the content kept on the button is
    untouched, but the second click does not bring back what the card
    showed at first.  The card
    showed the ampersand, 199 letters and the dots; after the two
    clicks it shows the ampersand, 195 letters and the dots, because
    the 200 code units are then cut from the escaped content. *)
Theorem toggle_twice_changes_display :
  let c0 := createArticleCard ampersand_article in
  displayed (toggles 1 c0) = content ampersand_article
  /\ option_map data_full_content (read_more_btn (toggles 2 c0))
     = Some (escapeHtml (content ampersand_article))
  /\ displayed c0 = amp :: repeat 65%N 199 ++ str "..."
  /\ displayed (toggles 2 c0) = amp :: repeat 65%N 195 ++ str "..."
  /\ displayed (toggles 2 c0) <> displayed c0.
Proof.
  cbv zeta. repeat split; try (vm_compute; reflexivity).
  intros H. apply (f_equal (@List.length code_unit)) in H.
  vm_compute in H. discriminate.
Qed.

End Toggle.

(** ** The states of the page *)

Section PageStates.

Lemma hideAllStates_fields (p : page) :
  articlesList (hideAllStates p) = none /\
  emptyState (hideAllStates p) = none /\
  errorState (hideAllStates p) = none /\
  loading_shown (hideAllStates p) = false /\
  calls (hideAllStates p) = P_hideAllStates :: calls p.
Proof.
  unfold hideAllStates, enter, loading_shown. cbn.
  destruct (loadingElement p) eqn:L; cbn; rewrite ?L; repeat split.
Qed.

Lemma showEmptyState_fields (p : page) :
  articlesList (showEmptyState p) = none /\
  emptyState (showEmptyState p) = block /\
  errorState (showEmptyState p) = none /\
  loading_shown (showEmptyState p) = false /\
  calls (showEmptyState p) = P_hideAllStates :: P_showEmptyState :: calls p.
Proof.
  unfold showEmptyState.
  destruct (hideAllStates_fields (enter P_showEmptyState p))
    as (H1 & H2 & H3 & H4 & H5).
  unfold loading_shown in *.
  cbn [with_emptyState articlesList emptyState errorState loadingElement calls].
  rewrite H5. cbn [enter with_calls calls]. repeat split; assumption.
Qed.

Lemma showErrorState_fields (p : page) :
  articlesList (showErrorState p) = none /\
  emptyState (showErrorState p) = none /\
  errorState (showErrorState p) = block /\
  loading_shown (showErrorState p) = false.
Proof.
  unfold showErrorState.
  destruct (hideAllStates_fields (enter P_showErrorState p))
    as (H1 & H2 & H3 & H4 & H5).
  unfold loading_shown in *.
  cbn [with_errorState articlesList emptyState errorState loadingElement calls].
  repeat split; assumption.
Qed.

Lemma showEmptyState_quiet (q p : page) (l : list procedure) :
  calls q = l ++ calls p -> ~ In P_showErrorState l ->
  errorState (showEmptyState q) = none /\
  (exists l', calls (showEmptyState q) = l' ++ calls p
              /\ ~ In P_showErrorState l') /\
  visible_states (showEmptyState q) = 1.
Proof.
  intros C N.
  destruct (showEmptyState_fields q) as (H1 & H2 & H3 & H4 & H5).
  split; [exact H3|split].
  - exists (P_hideAllStates :: P_showEmptyState :: l).
    rewrite H5, C. split; [reflexivity|].
    cbn. intros [H|[H|H]]; [discriminate | discriminate | exact (N H)].
  - unfold visible_states, shown_states. now rewrite H1, H2, H3, H4.
Qed.

Lemma append_cards (l : list Article) (q : page) :
  fold_left
    (fun q article =>
       let articleCard := createArticleCard article in
       with_articlesList (articlesList q)
         (articlesList_children q ++ [articleCard]) q)
    l q
  = with_articlesList (articlesList q)
      (articlesList_children q ++ map createArticleCard l) q.
Proof.
  revert q. induction l as [|a l IH]; intros q.
  - destruct q. cbn. now rewrite app_nil_r.
  - cbn [fold_left map]. rewrite IH. destruct q. cbn.
    now rewrite <- app_assoc.
Qed.

(** What [displayArticles] leaves on the page when there are articles. *)
Lemma displayArticles_cards (a : Article) (l : list Article) (p : page) :
  displayArticles (Some (a :: l)) p =
    with_articlesList grid (map createArticleCard (a :: l))
      (hideAllStates (enter P_displayArticles p)).
Proof.
  unfold displayArticles. rewrite append_cards. reflexivity.
Qed.

Lemma displayArticles_fields (articles : option (list Article)) (p : page) :
  errorState (displayArticles articles p) = none /\
  (exists l, calls (displayArticles articles p) = l ++ calls p
             /\ ~ In P_showErrorState l) /\
  visible_states (displayArticles articles p) = 1.
Proof.
  destruct (hideAllStates_fields (enter P_displayArticles p))
    as (H1 & H2 & H3 & H4 & H5).
  assert (C : calls (hideAllStates (enter P_displayArticles p))
              = [P_hideAllStates; P_displayArticles] ++ calls p)
    by (now rewrite H5).
  assert (N : ~ In P_showErrorState [P_hideAllStates; P_displayArticles])
    by (cbn; intros [H|[H|[]]]; discriminate).
  destruct articles as [[|a l]|];
    try (exact (showEmptyState_quiet _ p _ C N)).
  rewrite displayArticles_cards.
  cbn [with_articlesList errorState calls].
  split; [exact H3|split].
  - now exists [P_hideAllStates; P_displayArticles].
  - unfold visible_states, shown_states, loading_shown in *.
    cbn [with_articlesList articlesList emptyState errorState loadingElement].
    now rewrite H2, H3, H4.
Qed.

Lemma loadArticles_settled_fields (f : fetched) (p : page) :
  errorState (loadArticles_settled f p) = none /\
  (exists l, calls (loadArticles_settled f p) = l ++ calls p
             /\ ~ In P_showErrorState l) /\
  visible_states (loadArticles_settled f p) = 1.
Proof.
  pose proof (showEmptyState_quiet p p [] eq_refl (fun H => H)) as E.
  unfold loadArticles_settled, try_loadArticles.
  destruct f as [|ok st [r|]]; try exact E.
  - destruct ok; cbn [negb]; [|exact E].
    destruct (success r); [|exact E].
    destruct (data r) as [d|]; [|exact E].
    apply displayArticles_fields.
  - destruct ok; exact E.
Qed.

(** C9: after each step of the renderer (the list is displayed, the
    empty state is shown, the error state is shown, the articles are
    loaded) exactly one of the four states loading, list, empty and
    error shows. *)
Theorem one_state_visible
        (p : page) (articles : option (list Article)) (f : fetched) :
  visible_states (displayArticles articles p) = 1
  /\ visible_states (showEmptyState p) = 1
  /\ visible_states (showErrorState p) = 1
  /\ visible_states (loadArticles f p) = 1.
Proof.
  split; [apply displayArticles_fields|split; [|split]].
  - destruct (showEmptyState_fields p) as (H1 & H2 & H3 & H4 & _).
    unfold visible_states, shown_states. now rewrite H1, H2, H3, H4.
  - destruct (showErrorState_fields p) as (H1 & H2 & H3 & H4).
    unfold visible_states, shown_states. now rewrite H1, H2, H3, H4.
  - apply loadArticles_settled_fields.
Qed.

End PageStates.

(** ** The error state *)

(** A procedure other than [showErrorState] is entered and the error
    state is not assigned. *)
Ltac enters_quietly Q :=
  let E := fresh "E" in
  let C := fresh "C" in
  let H := fresh "H" in
  destruct Q as [E C]; split; [exact E|];
  cbn; intros [H|H]; [discriminate | now apply C].

Section ErrorState.

Lemma enter_error_free (f : procedure) (p : page) :
  f <> P_showErrorState -> error_free p -> error_free (enter f p).
Proof.
  intros N [E C]. split; [exact E|].
  cbn. intros [H|H]; [now apply N | now apply C].
Qed.

Lemma settled_error_free (f : fetched) (p : page) :
  error_free p -> error_free (loadArticles_settled f p).
Proof.
  intros [_ C].
  destruct (loadArticles_settled_fields f p) as (E & (l & L & N) & _).
  split; [exact E|].
  rewrite L. intros H. apply in_app_or in H. tauto.
Qed.

Lemma handleArticleSubmit_error_free (post reload : fetched) (p : page) :
  error_free p -> error_free (handleArticleSubmit post reload p).
Proof.
  intros Q.
  assert (Q1 : error_free (enter P_handleArticleSubmit p))
    by (apply enter_error_free; [discriminate | exact Q]).
  unfold handleArticleSubmit.
  set (q := enter P_handleArticleSubmit p) in *.
  assert (A : forall m, error_free (alert m q)) by (intros m; exact Q1).
  destruct (JsString.trim (form_title q)); [apply A|].
  destruct (JsString.trim (form_content q)); [apply A|].
  destruct post as [|ok st [r|]]; try apply A.
  destruct (success r); [|apply A].
  apply settled_error_free.
  destruct Q1 as [E C]. split; [exact E|].
  cbn. intros [H|[H|H]]; [discriminate | discriminate | now apply C].
Qed.

Lemma step_error_free (ev : event) (p : page) :
  error_free p -> error_free (step ev p).
Proof.
  intros Q. destruct ev as [f|post reload|i| | |t c]; cbn [step].
  - apply settled_error_free.
    apply enter_error_free; [discriminate|].
    apply enter_error_free; [discriminate | exact Q].
  - now apply handleArticleSubmit_error_free.
  - enters_quietly Q.
  - enters_quietly Q.
  - enters_quietly Q.
  - exact Q.
Qed.

Lemma run_error_free (evs : list event) (p : page) :
  error_free p -> error_free (run evs p).
Proof.
  revert p. induction evs as [|ev evs IH]; intros p Q; [exact Q|].
  cbn [run]. apply IH. now apply step_error_free.
Qed.

(** C10: whenever the fetch of the list fails (the request is
    rejected, the status is not OK, or the envelope says
    [success: false]) the renderer shows the empty state, and only it;
    and in no execution is the error state shown: it stays hidden and
    [showErrorState] is never entered, whatever the events. *)
Theorem failed_fetch_shows_empty_state
        (f : fetched) (p : page) (evs : list event) :
  (list_fetch_failed f = true ->
   emptyState (loadArticles f p) = block
   /\ errorState (loadArticles f p) = none
   /\ visible_states (loadArticles f p) = 1)
  /\ (errorState p = none -> ~ In P_showErrorState (calls p) ->
      errorState (run evs p) = none
      /\ ~ In P_showErrorState (calls (run evs p))).
Proof.
  split.
  - intros F.
    destruct (loadArticles_settled_fields f (enter P_loadArticles p))
      as (E & _ & V).
    split; [|split; [exact E | exact V]].
    unfold loadArticles, loadArticles_settled, try_loadArticles.
    pose proof (showEmptyState_fields (enter P_loadArticles p))
      as (_ & B & _).
    destruct f as [|ok st [r|]]; cbn in F; try exact B.
    + destruct ok; cbn [negb]; [|exact B].
      cbn in F. destruct (success r); [discriminate | exact B].
    + destruct ok; exact B.
  - intros E C. apply (run_error_free evs p). now split.
Qed.

Lemma failed_fetch_shows_empty_state_witness :
  (emptyState (loadArticles Rejected fresh_page) = block
   /\ errorState (loadArticles Rejected fresh_page) = none
   /\ visible_states (loadArticles Rejected fresh_page) = 1)
  /\ (errorState (run session fresh_page) = none
      /\ ~ In P_showErrorState (calls (run session fresh_page))).
Proof.
  destruct (failed_fetch_shows_empty_state Rejected fresh_page session)
    as [A B].
  split.
  - apply A. reflexivity.
  - apply B; [reflexivity|]. intros [].
Defined.

End ErrorState.

(** ** More on escaping *)

Section Escaping.


Lemma escape_unit_length (c : code_unit) :
  1 <= List.length (escape_unit c) /\
  (List.length (escape_unit c) = 1 -> plain [c] = true).
Proof.
  unfold escape_unit, plain. cbn [forallb].
  destruct (c =? amp)%N; [cbn; split; [lia | discriminate]|].
  destruct (c =? nbsp)%N; [cbn; split; [lia | discriminate]|].
  destruct (c =? lt)%N; [cbn; split; [lia | discriminate]|].
  destruct (c =? gt)%N; [cbn; split; [lia | discriminate]|].
  cbn. auto.
Qed.

Lemma escapeHtml_length (s : jsstring) :
  List.length s <= List.length (escapeHtml s).
Proof.
  induction s as [|c r IH]; [reflexivity|].
  change (escapeHtml (c :: r)) with (escape_unit c ++ escapeHtml r).
  rewrite length_app. cbn [List.length].
  destruct (escape_unit_length c) as [H _]. lia.
Qed.

Lemma escapeHtml_same_length (s : jsstring) :
  List.length (escapeHtml s) = List.length s -> plain s = true.
Proof.
  induction s as [|c r IH]; [reflexivity|].
  change (escapeHtml (c :: r)) with (escape_unit c ++ escapeHtml r).
  rewrite length_app. cbn [List.length]. intros H.
  destruct (escape_unit_length c) as [H1 H2].
  pose proof (escapeHtml_length r) as Hr.
  change (c :: r) with ([c] ++ r). rewrite plain_app.
  rewrite H2 by lia. rewrite IH by lia. reflexivity.
Qed.

Lemma escapeHtml_injective (s t : jsstring) :
  escapeHtml s = escapeHtml t -> s = t.
Proof.
  intros H. rewrite <- (textContent_escapeHtml s), <- (textContent_escapeHtml t).
  now rewrite H.
Qed.

Lemma escape_unit_units (c : code_unit) :
  Forall (fun d => d <> lt /\ d <> gt /\ d <> nbsp) (escape_unit c).
Proof.
  unfold escape_unit, lt, gt, nbsp, amp.
  destruct (c =? 38)%N; [repeat constructor; discriminate|].
  destruct (c =? 160)%N eqn:B; [repeat constructor; discriminate|].
  destruct (c =? 60)%N eqn:C; [repeat constructor; discriminate|].
  destruct (c =? 62)%N eqn:D; [repeat constructor; discriminate|].
  apply N.eqb_neq in B, C, D. repeat constructor; assumption.
Qed.

(** X1: [escapeHtml] is one to one: two texts have the same markup
    exactly when they are the same text, so the markup kept on a
    button determines the content it was made from. *)
Theorem escapeHtml_one_to_one (s t : jsstring) :
  escapeHtml s = escapeHtml t <-> s = t.
Proof.
  split; [|now intros ->].
  intros H.
  rewrite <- (textContent_escapeHtml s), <- (textContent_escapeHtml t).
  now rewrite H.
Qed.

(** X2: the markup [escapeHtml] returns holds no [<], no [>] and no
    no-break space, and each of its [&] opens a character reference. *)
Theorem escapeHtml_output_safe (s : jsstring) :
  (forall c, In c (escapeHtml s) -> c <> lt /\ c <> gt /\ c <> nbsp)
  /\ is_escaped (escapeHtml s) = true.
Proof.
  split; [|apply is_escaped_escapeHtml].
  apply Forall_forall.
  induction s as [|c r IH]; [constructor|].
  change (escapeHtml (c :: r)) with (escape_unit c ++ escapeHtml r).
  apply Forall_app. split; [apply escape_unit_units | exact IH].
Qed.

(** X3: [escapeHtml] never shortens a text; it returns the text as it
    is exactly when the text holds none of [&], [<], [>] and the
    no-break space, and only then is escaping twice the same as
    escaping once. *)
Theorem escapeHtml_fixed_point (s : jsstring) :
  List.length s <= List.length (escapeHtml s)
  /\ (escapeHtml s = s <-> plain s = true)
  /\ (escapeHtml (escapeHtml s) = escapeHtml s <-> plain s = true).
Proof.
  assert (F : escapeHtml s = s <-> plain s = true).
  { split; [|apply escapeHtml_plain].
    intros H. apply escapeHtml_same_length. now rewrite H. }
  split; [apply escapeHtml_length|split; [exact F|]].
  split.
  - intros H. apply F. now apply escapeHtml_injective.
  - intros P. now rewrite (escapeHtml_plain s P), (escapeHtml_plain s P).
Qed.

End Escaping.

(** ** More on the toggle *)

Section Toggling.

Lemma toggle_thrice (a : Article) :
  needsReadMore a = true ->
  toggles 3 (createArticleCard a) = toggles 1 (createArticleCard a).
Proof.
  intros H. unfold toggles, toggleReadMore, createArticleCard.
  rewrite H. reflexivity.
Qed.

Lemma toggles_period (a : Article) (n : nat) :
  needsReadMore a = true ->
  toggles (S (S (S n))) (createArticleCard a) = toggles (S n) (createArticleCard a).
Proof.
  intros H. induction n as [|n IH]; [now apply toggle_thrice|].
  change (toggles (S (S (S (S n)))) (createArticleCard a))
    with (toggleReadMore (toggles (S (S (S n))) (createArticleCard a))).
  now rewrite IH.
Qed.

Lemma toggles_odd (a : Article) (n : nat) :
  needsReadMore a = true ->
  toggles (S (2 * n)) (createArticleCard a) = toggles 1 (createArticleCard a).
Proof.
  intros H. induction n as [|n IH]; [reflexivity|].
  replace (S (2 * S n)) with (S (S (S (2 * n)))) by lia.
  now rewrite toggles_period.
Qed.




(** X5: on a card with the button the clicks alternate from the first
    one on: a click after two more clicks gives the same card, and
    after an odd number of clicks the card shows the whole content. *)
Theorem toggle_alternates (a : Article) (n : nat) :
  needsReadMore a = true ->
  toggles (S (S (S n))) (createArticleCard a) = toggles (S n) (createArticleCard a)
  /\ displayed (toggles (S (2 * n)) (createArticleCard a)) = content a.
Proof.
  intros H. split; [now apply toggles_period|].
  rewrite toggles_odd by exact H. now apply toggleReadMore_expands.
Qed.

Lemma toggle_alternates_witness :
  needsReadMore ampersand_article = true
  /\ toggles 5 (createArticleCard ampersand_article)
     = toggles 3 (createArticleCard ampersand_article)
  /\ displayed (toggles 5 (createArticleCard ampersand_article))
     = content ampersand_article.
Proof.
  split; [reflexivity|].
  apply (toggle_alternates ampersand_article 2). reflexivity.
Defined.

(** X6: whatever the number of clicks, the markup of the content of a
    card holds no [<] and no [>], the title stays the escaped title,
    and the content kept on the button stays the escaped content. *)
Theorem toggles_never_inject (a : Article) (n : nat) :
  tag_free (innerHTML (article_content (toggles n (createArticleCard a)))) = true
  /\ article_title (toggles n (createArticleCard a)) = escapeHtml (title a)
  /\ option_map data_full_content (read_more_btn (toggles n (createArticleCard a)))
     = (if 200 <? List.length (content a)
        then Some (escapeHtml (content a)) else None).
Proof.
  split; [apply toggles_tag_free|].
  destruct (toggles_keep n (createArticleCard a)) as [T B].
  split; [exact T|]. rewrite B.
  unfold createArticleCard, needsReadMore. cbn [read_more_btn].
  now destruct (200 <? List.length (content a)).
Qed.

End Toggling.

(** ** The icon of a card *)

Section Icons.

Lemma startsWith_app (p b : jsstring) : startsWith p (p ++ b) = true.
Proof.
  induction p as [|c p IH]; [reflexivity|].
  cbn. now rewrite N.eqb_refl.
Qed.

Lemma includes_here (p s : jsstring) :
  startsWith p s = true -> includes p s = true.
Proof. intros H. destruct s; cbn [includes]; now rewrite H. Qed.

Lemma includes_later (p a s : jsstring) :
  includes p s = true -> includes p (a ++ s) = true.
Proof.
  intros H. induction a as [|c a IH]; [exact H|].
  cbn [app includes]. rewrite IH. apply orb_true_r.
Qed.

Lemma includes_middle (p a b : jsstring) : includes p (a ++ p ++ b) = true.
Proof. apply includes_later, includes_here, startsWith_app. Qed.

Lemma toLowerCase_app (a b : jsstring) :
  toLowerCase (a ++ b) = toLowerCase a ++ toLowerCase b.
Proof. apply flat_map_app. Qed.

(** X7: the icon of a card is always one of the eight icons of the
    script, whatever the title, and holds nothing that would need
    escaping. *)
Theorem getArticleIcon_is_an_icon (title : jsstring) :
  In (getArticleIcon title) icons
  /\ plain (getArticleIcon title) = true.
Proof.
  unfold getArticleIcon, icons.
  repeat match goal with
         | |- context [if ?b then _ else _] => destruct b
         end;
    (split; [cbn; tauto | reflexivity]).
Qed.

(** X8: a title that holds the word password or the word auth, in
    whatever letter case, gets the padlock, whatever else the title
    holds. *)
Theorem getArticleIcon_padlock (before word after : jsstring) :
  toLowerCase word = str "password" \/ toLowerCase word = str "auth" ->
  getArticleIcon (before ++ word ++ after) = [55357; 56592]%N.
Proof.
  intros H. unfold getArticleIcon.
  rewrite !toLowerCase_app.
  destruct H as [-> | ->]; rewrite includes_middle;
    [reflexivity | now rewrite orb_true_r].
Qed.

Lemma getArticleIcon_padlock_witness :
  (toLowerCase (str "PassWord") = str "password"
   \/ toLowerCase (str "PassWord") = str "auth")
  /\ getArticleIcon (str "Network " ++ str "PassWord" ++ str " rules")
     = [55357; 56592]%N.
Proof.
  split; [left; reflexivity|].
  apply (getArticleIcon_padlock (str "Network ") (str "PassWord") (str " rules")).
  left. reflexivity.
Defined.

End Icons.

(** ** More on the API *)

Section Creation.

(** What the create route does with a title and a content that are
    non-empty strings. *)
Lemma post_strings (e : env) (b : object) (db : store) (t c : jsstring) :
  get b (str "title") = VString t ->
  get b (str "content") = VString c ->
  t <> [] -> c <> [] ->
  post_articles e b db =
    if negb (List.length (JsString.trim t) =? 0)
       && (List.length (JsString.trim t) <=? 200)
       && negb (List.length (JsString.trim c) =? 0)
    then
      if db_ok e && negb (existsb (fun a => (_id a =? fresh_id e)%N) db)
      then
        let saved := {| _id := fresh_id e; title := JsString.trim t;
                        content := JsString.trim c; date := now e |} in
        ({| status := 201;
            body := Created true (str "Article created successfully") saved |},
         db ++ [saved])
      else
        ({| status := 500;
            body := Failure false (str "Server error while creating article") |},
         db)
    else
      ({| status := 500;
          body := Failure false (str "Server error while creating article") |},
       db).
Proof.
  intros Ht Hc Nt Nc. unfold post_articles. rewrite Ht, Hc.
  destruct t as [|x t]; [contradiction|].
  destruct c as [|y c]; [contradiction|].
  cbn [truthy negb orb].
  unfold save, validate, new_Article, applySetters.
  cbn [castString doc_title doc_content doc_id doc_date title_path content_path
       trim validatePath required maxlength negb orb].
  set (T := JsString.trim (x :: t)). set (C := JsString.trim (y :: c)).
  destruct (List.length T =? 0); cbn [negb andb]; [reflexivity|].
  destruct (List.length T <=? 200); cbn [andb]; [|reflexivity].
  destruct (List.length C =? 0); cbn [negb andb]; [reflexivity|].
  destruct (db_ok e && _); reflexivity.
Qed.

Lemma length_zero_iff (s : jsstring) : (List.length s =? 0) = true <-> s = [].
Proof. destruct s; cbn; split; congruence. Qed.

Lemma trim_nonempty (s : jsstring) : JsString.trim s <> [] -> s <> [].
Proof. intros H ->. now apply H. Qed.

(** X9: a POST whose title and content are strings that are non-empty
    once trimmed, with a trimmed title of at most 200 code units, served
    while the database answers and with a new identifier, is answered
    201 and stores the trimmed title and content, dated with the clock
    of the server. *)
Theorem post_articles_stores_trimmed
        (e : env) (b : object) (db : store) (t c : jsstring) :
  get b (str "title") = VString t ->
  get b (str "content") = VString c ->
  JsString.trim t <> [] ->
  List.length (JsString.trim t) <= 200 ->
  JsString.trim c <> [] ->
  db_ok e = true ->
  existsb (fun a => (_id a =? fresh_id e)%N) db = false ->
  post_articles e b db =
    let saved := {| _id := fresh_id e; title := JsString.trim t;
                    content := JsString.trim c; date := now e |} in
    ({| status := 201;
        body := Created true (str "Article created successfully") saved |},
     db ++ [saved]).
Proof.
  intros Ht Hc Nt Lt Nc Up Fresh.
  rewrite (post_strings e b db t c Ht Hc (trim_nonempty t Nt) (trim_nonempty c Nc)).
  destruct (List.length (JsString.trim t) =? 0) eqn:Zt;
    [now apply length_zero_iff in Zt|].
  destruct (List.length (JsString.trim c) =? 0) eqn:Zc;
    [now apply length_zero_iff in Zc|].
  apply Nat.leb_le in Lt. rewrite Lt, Up, Fresh. reflexivity.
Qed.

Lemma post_articles_stores_trimmed_witness :
  post_articles env_up padded_body [] =
    ({| status := 201;
        body := Created true (str "Article created successfully")
                        firewall_article |},
     [firewall_article]).
Proof.
  apply (post_articles_stores_trimmed env_up padded_body []
           (str "  Firewall basics ") (str " Deny by default.  "));
    try reflexivity; try (vm_compute; discriminate).
  vm_compute. lia.
Defined.

(** X10: a POST whose title and content are non-empty strings, one of
    which is blank once trimmed or whose trimmed title has more than
    200 code units, is not answered 400: it is answered 500 and
    nothing is stored. *)
Theorem post_articles_refused_by_schema
        (e : env) (b : object) (db : store) (t c : jsstring) :
  get b (str "title") = VString t ->
  get b (str "content") = VString c ->
  t <> [] -> c <> [] ->
  JsString.trim t = [] \/ JsString.trim c = []
  \/ 200 < List.length (JsString.trim t) ->
  post_articles e b db =
    ({| status := 500;
        body := Failure false (str "Server error while creating article") |},
     db).
Proof.
  intros Ht Hc Nt Nc R. rewrite (post_strings e b db t c Ht Hc Nt Nc).
  destruct R as [R|[R|R]].
  - rewrite R. reflexivity.
  - rewrite R. cbn [List.length Nat.eqb negb]. now rewrite andb_false_r.
  - apply Nat.leb_gt in R. rewrite R. cbn [andb]. now rewrite andb_false_r.
Qed.

Lemma post_articles_refused_by_schema_witness :
  post_articles env_up blank_title_body [short_article] =
    ({| status := 500;
        body := Failure false (str "Server error while creating article") |},
     [short_article]).
Proof.
  apply (post_articles_refused_by_schema env_up blank_title_body [short_article]
           (str "   ") (str "text"));
    try reflexivity; try discriminate.
  left. reflexivity.
Defined.

(** X11: what the form posts once the script has checked it (a trimmed
    title and a trimmed content, both non-empty) is never answered 400;
    it is answered 201 exactly when the title has at most 200 code
    units, the database answers and the identifier is new, and 500
    otherwise. *)
Theorem checked_form_never_400 (e : env) (db : store) (t c : jsstring) :
  JsString.trim t <> [] ->
  JsString.trim c <> [] ->
  let answer :=
    status (fst (post_articles e (form_body (JsString.trim t) (JsString.trim c)) db)) in
  (answer = 201 \/ answer = 500)
  /\ (answer = 201 <->
      List.length (JsString.trim t) <= 200 /\ db_ok e = true
      /\ existsb (fun a => (_id a =? fresh_id e)%N) db = false).
Proof.
  intros Nt Nc. cbv zeta.
  rewrite (post_strings e (form_body (JsString.trim t) (JsString.trim c)) db
             (JsString.trim t) (JsString.trim c) eq_refl eq_refl Nt Nc).
  rewrite !trim_idempotent.
  destruct (List.length (JsString.trim t) =? 0) eqn:Zt;
    [now apply length_zero_iff in Zt|].
  destruct (List.length (JsString.trim c) =? 0) eqn:Zc;
    [now apply length_zero_iff in Zc|].
  cbn [negb andb].
  destruct (Nat.leb_spec (List.length (JsString.trim t)) 200) as [L|L];
    cbn [andb].
  - destruct (db_ok e); cbn [andb].
    + destruct (existsb _ db); cbn [negb fst status].
      * split; [now right|]. split; [discriminate|]. intros (_ & _ & F). discriminate.
      * split; [now left|]. split; auto.
    + cbn [fst status]. split; [now right|].
      split; [discriminate|]. intros (_ & F & _). discriminate.
  - cbn [fst status]. split; [now right|].
    split; [discriminate|]. intros (F & _). lia.
Qed.

Lemma checked_form_never_400_witness :
  status (fst (post_articles env_up
                 (form_body (JsString.trim (str "  Firewall basics "))
                            (JsString.trim (str " Deny by default.  "))) [])) = 201.
Proof.
  apply (checked_form_never_400 env_up [] (str "  Firewall basics ")
                                (str " Deny by default.  "));
    try (vm_compute; discriminate).
  repeat split. vm_compute. lia.
Defined.

End Creation.

(** ** More on the store *)

Section Collection.

Lemma handle_store (e : env) (r : request) (db : store) :
  (status (fst (handle e r db)) = 201 /\
   exists a, handle e r db =
               ({| status := 201;
                   body := Created true (str "Article created successfully") a |},
                db ++ [a]))
  \/ (status (fst (handle e r db)) <> 201 /\ snd (handle e r db) = db).
Proof.
  destruct r as [| |b|]; cbn [handle].
  - right. split; [discriminate | reflexivity].
  - right. unfold get_articles.
    destruct (find_sorted e db); split; try discriminate; reflexivity.
  - unfold post_articles.
    destruct (negb (truthy _) || negb (truthy _));
      [right; split; [discriminate | reflexivity]|].
    destruct (save e _ db) as [err|[saved db']] eqn:S;
      [right; split; [discriminate | reflexivity]|].
    left. split; [reflexivity|]. exists saved.
    apply save_new_Article in S. destruct S as (-> & _). reflexivity.
  - right. split; [discriminate | reflexivity].
Qed.

(** X12: the store changes exactly when a request is answered 201, and
    then by the one record the answer carries, added at its end; any
    other answer leaves the store as it was. *)
Theorem store_changes_iff_201 (e : env) (r : request) (db : store) :
  (status (fst (handle e r db)) = 201 ->
   exists a,
     body (fst (handle e r db))
       = Created true (str "Article created successfully") a
     /\ snd (handle e r db) = db ++ [a])
  /\ (status (fst (handle e r db)) <> 201 -> snd (handle e r db) = db).
Proof.
  destruct (handle_store e r db) as [[S (a & H)]|[S H]]; split.
  - intros _. exists a. now rewrite H.
  - intros N. contradiction.
  - intros Y. contradiction.
  - intros _. exact H.
Qed.

(** X13: no sequence of requests removes or changes a stored article:
    the store after the requests is the store before them followed by
    the articles created, at most one per request. *)
Theorem store_append_only (rs : list (env * request)) (db : store) :
  exists added,
    serve rs db = db ++ added /\ List.length added <= List.length rs.
Proof.
  revert db. induction rs as [|[e r] rs IH]; intros db.
  - exists []. split; [now rewrite app_nil_r | reflexivity].
  - cbn [serve].
    destruct (IH (snd (handle e r db))) as (added & E & L).
    destruct (handle_store e r db) as [[_ (a & H)]|[_ H]].
    + exists (a :: added). rewrite E, H. cbn [snd List.length].
      rewrite <- app_assoc. split; [reflexivity | lia].
    + exists added. rewrite E, H. cbn [List.length]. split; [reflexivity | lia].
Qed.

Lemma sort_newest_last (db : store) (a : Article) :
  (forall b, In b db -> (date b < date a)%Z) ->
  sort_date_desc (db ++ [a]) = a :: sort_date_desc db.
Proof.
  induction db as [|x db IH]; intros H; [reflexivity|].
  cbn [app sort_date_desc fold_right].
  change (fold_right insert_desc [] (db ++ [a])) with (sort_date_desc (db ++ [a])).
  rewrite IH by (intros b Hb; apply H; now right).
  cbn [insert_desc].
  assert (L : (date x < date a)%Z) by (apply H; now left).
  destruct (Z.leb_spec (date a) (date x)); [lia | reflexivity].
Qed.

(** X14: an article created when the clock of the server is past the
    date of every stored article comes first in the next list. *)
Theorem created_article_listed_first
        (e e' : env) (b : object) (db db' : store) (saved : Article) :
  (forall a, In a db -> (date a < now e)%Z) ->
  handle e (POST_articles b) db =
    ({| status := 201;
        body := Created true (str "Article created successfully") saved |}, db') ->
  db_ok e' = true ->
  exists older,
    handle e' GET_articles db' =
      ({| status := 200;
          body := Articles true (S (List.length db)) (saved :: older) |}, db')
    /\ Permutation db older.
Proof.
  intros Old Post Up. cbn [handle] in *.
  unfold post_articles in Post.
  destruct (negb (truthy _) || negb (truthy _)); [discriminate|].
  destruct (save e _ db) as [err|[s d]] eqn:S; [discriminate|].
  injection Post as <- <-.
  apply save_new_Article in S. destruct S as (-> & _ & _ & D & _).
  exists (sort_date_desc db). split; [|apply sort_date_desc_perm].
  unfold get_articles, find_sorted. rewrite Up.
  rewrite sort_newest_last by (intros a Ha; rewrite D; now apply Old).
  cbn [List.length]. rewrite <- (Permutation_length (sort_date_desc_perm db)).
  reflexivity.
Qed.

Lemma created_article_listed_first_witness :
  exists older,
    handle env_later GET_articles [short_article; last_article] =
      ({| status := 200;
          body := Articles true 2 (last_article :: older) |},
       [short_article; last_article])
    /\ Permutation [short_article] older.
Proof.
  apply (created_article_listed_first env_last env_later padded_body
           [short_article] [short_article; last_article] last_article).
  - intros a [<-|[]]. vm_compute. reflexivity.
  - vm_compute. reflexivity.
  - reflexivity.
Defined.

Lemma handle_trimmed (e : env) (r : request) (db : store) :
  Forall trimmed_article db -> Forall trimmed_article (snd (handle e r db)).
Proof.
  intros Inv. destruct r as [| |b|]; cbn [handle snd]; try exact Inv.
  - now rewrite get_articles_store.
  - unfold post_articles.
    destruct (negb (truthy _) || negb (truthy _)); [exact Inv|].
    destruct (save e _ db) as [err|[saved db']] eqn:S; [exact Inv|].
    apply save_new_Article in S. destruct S as (-> & Ht & Hc & _).
    apply Forall_app. split; [exact Inv|]. constructor; [|constructor].
    split.
    + exact (applySetters_trimmed title_path _ _ eq_refl Ht).
    + exact (applySetters_trimmed content_path _ _ eq_refl Hc).
Qed.

(** X15: whatever the requests served since the collection was empty,
    every stored title and content is trimmed: trimming it again
    changes nothing. *)
Theorem served_store_trimmed (rs : list (env * request)) :
  Forall trimmed_article (serve rs []).
Proof.
  assert (G : forall db, Forall trimmed_article db ->
                         Forall trimmed_article (serve rs db)).
  { induction rs as [|[e r] rs IH]; intros db Inv; [exact Inv|].
    cbn [serve]. apply IH. now apply handle_trimmed. }
  apply G. constructor.
Qed.

End Collection.

(** ** More on the page *)

Section Rendering.

(** What the procedures that show a state leave alone. *)
Lemma hideAllStates_frame (p : page) :
  articlesList_children (hideAllStates p) = articlesList_children p /\
  addArticleForm (hideAllStates p) = addArticleForm p /\
  form_title (hideAllStates p) = form_title p /\
  form_content (hideAllStates p) = form_content p /\
  alerts (hideAllStates p) = alerts p.
Proof.
  unfold hideAllStates, enter. cbn.
  destruct (loadingElement p); cbn; repeat split.
Qed.

Lemma showEmptyState_frame (p : page) :
  articlesList_children (showEmptyState p) = articlesList_children p /\
  addArticleForm (showEmptyState p) = addArticleForm p /\
  form_title (showEmptyState p) = form_title p /\
  form_content (showEmptyState p) = form_content p /\
  alerts (showEmptyState p) = alerts p.
Proof.
  unfold showEmptyState.
  destruct (hideAllStates_frame (enter P_showEmptyState p))
    as (H1 & H2 & H3 & H4 & H5).
  cbn [with_emptyState articlesList_children addArticleForm form_title
       form_content alerts].
  repeat split; assumption.
Qed.

Lemma displayArticles_frame (articles : option (list Article)) (p : page) :
  addArticleForm (displayArticles articles p) = addArticleForm p /\
  form_title (displayArticles articles p) = form_title p /\
  form_content (displayArticles articles p) = form_content p /\
  alerts (displayArticles articles p) = alerts p.
Proof.
  destruct (hideAllStates_frame (enter P_displayArticles p))
    as (_ & H2 & H3 & H4 & H5).
  destruct articles as [[|a l]|].
  - unfold displayArticles.
    destruct (showEmptyState_frame (hideAllStates (enter P_displayArticles p)))
      as (_ & G2 & G3 & G4 & G5).
    rewrite G2, G3, G4, G5. repeat split; assumption.
  - rewrite displayArticles_cards.
    cbn [with_articlesList addArticleForm form_title form_content alerts].
    repeat split; assumption.
  - unfold displayArticles.
    destruct (showEmptyState_frame (hideAllStates (enter P_displayArticles p)))
      as (_ & G2 & G3 & G4 & G5).
    rewrite G2, G3, G4, G5. repeat split; assumption.
Qed.

Lemma loadArticles_settled_frame (f : fetched) (p : page) :
  addArticleForm (loadArticles_settled f p) = addArticleForm p /\
  form_title (loadArticles_settled f p) = form_title p /\
  form_content (loadArticles_settled f p) = form_content p /\
  alerts (loadArticles_settled f p) = alerts p.
Proof.
  destruct (showEmptyState_frame p) as (_ & E).
  unfold loadArticles_settled, try_loadArticles.
  destruct f as [|ok st [r|]]; try exact E.
  - destruct ok; cbn [negb]; [|exact E].
    destruct (success r); [|exact E].
    destruct (data r) as [d|]; [|exact E].
    apply displayArticles_frame.
  - destruct ok; exact E.
Qed.

(** X16: [displayArticles] on a non-empty list replaces the cards of
    the grid by one card per article, in the order of the list, and
    shows the grid; on an empty or absent list it shows the empty
    state and leaves the cards that were in the grid where they are,
    hidden. *)
Theorem displayArticles_replaces_cards
        (p : page) (a : Article) (l : list Article) :
  (articlesList_children (displayArticles (Some (a :: l)) p)
     = map createArticleCard (a :: l)
   /\ articlesList (displayArticles (Some (a :: l)) p) = grid
   /\ emptyState (displayArticles (Some (a :: l)) p) = none)
  /\ (forall nothing, nothing = None \/ nothing = Some [] ->
      articlesList_children (displayArticles nothing p) = articlesList_children p
      /\ articlesList (displayArticles nothing p) = none
      /\ emptyState (displayArticles nothing p) = block).
Proof.
  split.
  - rewrite displayArticles_cards.
    destruct (hideAllStates_fields (enter P_displayArticles p))
      as (_ & H2 & _).
    cbn [with_articlesList articlesList_children articlesList emptyState].
    auto.
  - intros nothing N.
    assert (E : displayArticles nothing p
                = showEmptyState (hideAllStates (enter P_displayArticles p)))
      by (destruct N as [-> | ->]; reflexivity).
    rewrite E.
    destruct (showEmptyState_fields (hideAllStates (enter P_displayArticles p)))
      as (H1 & H2 & _).
    destruct (showEmptyState_frame (hideAllStates (enter P_displayArticles p)))
      as (G1 & _).
    destruct (hideAllStates_frame (enter P_displayArticles p)) as (F1 & _).
    rewrite G1, F1. auto.
Qed.

(** X17: the page loaded from the answer of the list route shows the
    grid with one card per stored article, most recent first, when the
    database answers and the store is not empty; it shows the empty
    state, and never the error state, when the store is empty and also
    when the database does not answer. *)
Theorem page_of_list_route (e : env) (db : store) (p : page) :
  let q := loadArticles (fetched_of (fst (get_articles e db))) p in
  errorState q = none
  /\ (db_ok e = true -> db <> [] ->
      articlesList q = grid
      /\ articlesList_children q = map createArticleCard (sort_date_desc db)
      /\ List.length (articlesList_children q) = List.length db)
  /\ (db_ok e = false \/ db = [] ->
      emptyState q = block /\ articlesList q = none
      /\ articlesList_children q = articlesList_children p).
Proof.
  cbv zeta. split; [|split].
  - apply loadArticles_settled_fields.
  - intros Up N. unfold get_articles, find_sorted. rewrite Up.
    pose proof (sort_date_desc_perm db) as P.
    destruct (sort_date_desc db) as [|a l] eqn:S.
    + apply Permutation_sym, Permutation_nil in P. contradiction.
    + unfold loadArticles, loadArticles_settled. cbn [fst fetched_of res_json
        status body result_of try_loadArticles success data].
      change ((200 <=? 200) && (200 <=? 299)) with true. cbn [negb].
      rewrite displayArticles_cards.
      cbn [with_articlesList articlesList_children articlesList].
      repeat split.
      rewrite length_map. symmetry. exact (Permutation_length P).
  - intros D.
    assert (E : loadArticles (fetched_of (fst (get_articles e db))) p
                = showEmptyState (enter P_loadArticles p)
                \/ loadArticles (fetched_of (fst (get_articles e db))) p
                   = displayArticles (Some []) (enter P_loadArticles p)).
    { unfold get_articles, find_sorted.
      destruct (db_ok e) eqn:Up.
      - destruct D as [D|D]; [discriminate|]. subst db. right. reflexivity.
      - left. reflexivity. }
    destruct E as [E|E]; rewrite E.
    + destruct (showEmptyState_fields (enter P_loadArticles p)) as (H1 & H2 & _).
      destruct (showEmptyState_frame (enter P_loadArticles p)) as (G1 & _).
      rewrite H1, H2, G1. repeat split.
    + unfold displayArticles.
      set (h := hideAllStates (enter P_displayArticles (enter P_loadArticles p))).
      destruct (showEmptyState_fields h) as (H1 & H2 & _).
      destruct (showEmptyState_frame h) as (G1 & _).
      destruct (hideAllStates_frame
                  (enter P_displayArticles (enter P_loadArticles p)))
        as (F1 & _).
      fold h in F1. rewrite H1, H2, G1, F1. repeat split.
Qed.

End Rendering.

(** ** The submission of the form *)

Section Submission.

(** The two ways [handleArticleSubmit] ends: one alert and nothing
    else, or the form is cleared and hidden and the list is loaded
    again. *)
Lemma handleArticleSubmit_cases (post reload : fetched) (p : page) :
  let q := enter P_handleArticleSubmit p in
  ((JsString.trim (form_title p) = [] \/ JsString.trim (form_content p) = []
    \/ post_succeeded post = false)
   /\ exists m, handleArticleSubmit post reload p = alert m q)
  \/ (JsString.trim (form_title p) <> []
      /\ JsString.trim (form_content p) <> []
      /\ post_succeeded post = true
      /\ handleArticleSubmit post reload p =
           loadArticles_settled reload
             (alert (str "Article published successfully!")
                (enter P_loadArticles (hideAddArticleForm (reset q))))).
Proof.
  cbv zeta. unfold handleArticleSubmit.
  change (form_title (enter P_handleArticleSubmit p)) with (form_title p).
  change (form_content (enter P_handleArticleSubmit p)) with (form_content p).
  destruct (JsString.trim (form_title p)) as [|x t];
    [left; split; [now left | eexists; reflexivity]|].
  destruct (JsString.trim (form_content p)) as [|y c];
    [left; split; [now (right; left) | eexists; reflexivity]|].
  destruct post as [|ok st [r|]]; cbn [post_succeeded];
    try (left; split; [now (right; right) | eexists; reflexivity]).
  destruct (success r).
  - right. repeat split; discriminate.
  - left. split; [now (right; right) | eexists; reflexivity].
Qed.

(** X18: a submission with a blank title or a blank content, or whose
    POST is rejected, has a body that does not parse, or is answered
    [success: false], raises one alert and changes nothing else on the
    page: the form keeps what was typed and stays open, and the list is
    not loaded again. *)
Theorem failed_submission_keeps_page (post reload : fetched) (p : page) :
  JsString.trim (form_title p) = [] \/ JsString.trim (form_content p) = []
  \/ post_succeeded post = false ->
  let q := handleArticleSubmit post reload p in
  (exists m, alerts q = m :: alerts p)
  /\ form_title q = form_title p /\ form_content q = form_content p
  /\ addArticleForm q = addArticleForm p
  /\ articlesList q = articlesList p
  /\ articlesList_children q = articlesList_children p
  /\ emptyState q = emptyState p /\ errorState q = errorState p
  /\ loadingElement q = loadingElement p
  /\ calls q = P_handleArticleSubmit :: calls p.
Proof.
  intros F. cbv zeta.
  destruct (handleArticleSubmit_cases post reload p)
    as [[_ (m & ->)] | (Nt & Nc & S & _)].
  - split; [now exists m|]. repeat split.
  - destruct F as [F|[F|F]]; [contradiction | contradiction | congruence].
Qed.

Lemma failed_submission_keeps_page_witness :
  (exists m, alerts (handleArticleSubmit Rejected Rejected filled_page)
             = m :: alerts filled_page)
  /\ form_title (handleArticleSubmit Rejected Rejected filled_page)
     = str "Firewall basics"
  /\ addArticleForm (handleArticleSubmit Rejected Rejected filled_page) = block.
Proof.
  destruct (failed_submission_keeps_page Rejected Rejected filled_page)
    as (A & T & _ & F & _).
  - right. right. reflexivity.
  - repeat split; assumption.
Defined.

(** X19: a submission with a title and a content that are not blank,
    whose POST is answered with a body that parses and says
    [success: true] (whatever the status of the response), clears the
    form, hides it, raises the alert of success and loads the list
    again, after which exactly one state shows. *)
Theorem successful_submission_reloads (post reload : fetched) (p : page) :
  JsString.trim (form_title p) <> [] ->
  JsString.trim (form_content p) <> [] ->
  post_succeeded post = true ->
  let q := handleArticleSubmit post reload p in
  form_title q = [] /\ form_content q = []
  /\ addArticleForm q = none
  /\ alerts q = str "Article published successfully!" :: alerts p
  /\ visible_states q = 1
  /\ In P_loadArticles (calls q).
Proof.
  intros Nt Nc S. cbv zeta.
  destruct (handleArticleSubmit_cases post reload p)
    as [[F _] | (_ & _ & _ & ->)].
  - destruct F as [F|[F|F]]; [contradiction | contradiction | congruence].
  - match goal with
    | |- context [loadArticles_settled reload ?x] => set (before := x)
    end.
    destruct (loadArticles_settled_frame reload before) as (H1 & H2 & H3 & H4).
    destruct (loadArticles_settled_fields reload before) as (_ & (l & L & _) & V).
    rewrite H1, H2, H3, H4, L.
    repeat split; try exact V.
    apply in_or_app. right. subst before. cbn. tauto.
Qed.

Lemma successful_submission_reloads_witness :
  form_title (handleArticleSubmit
                (Resolved true 201 (Some {| success := true; message := None;
                                            data := None |}))
                Rejected filled_page) = []
  /\ addArticleForm (handleArticleSubmit
                (Resolved true 201 (Some {| success := true; message := None;
                                            data := None |}))
                Rejected filled_page) = none.
Proof.
  destruct (successful_submission_reloads
              (Resolved true 201 (Some {| success := true; message := None;
                                          data := None |}))
              Rejected filled_page) as (T & _ & F & _).
  - vm_compute. discriminate.
  - vm_compute. discriminate.
  - reflexivity.
  - split; assumption.
Defined.

Lemma step_one_state (ev : event) (p : page) :
  visible_states p = 1 -> visible_states (step ev p) = 1.
Proof.
  intros V. destruct ev as [f|post reload|i| | |t c]; cbn [step];
    try exact V.
  - apply loadArticles_settled_fields.
  - destruct (handleArticleSubmit_cases post reload p)
      as [[_ (m & ->)] | (_ & _ & _ & ->)].
    + exact V.
    + apply loadArticles_settled_fields.
Qed.

(** X20: once the page has loaded its list for the first time, exactly
    one of the four states shows after every event, whatever the
    events and however each fetch ends. *)
Theorem one_state_after_first_load
        (f : fetched) (evs : list event) (p : page) :
  visible_states (run (DOMContentLoaded f :: evs) p) = 1.
Proof.
  cbn [run].
  assert (V : visible_states (step (DOMContentLoaded f) p) = 1)
    by (cbn [step]; apply loadArticles_settled_fields).
  revert V. generalize (step (DOMContentLoaded f) p).
  induction evs as [|ev evs IH]; intros q V; [exact V|].
  cbn [run]. apply IH. now apply step_one_state.
Qed.

End Submission.

(** ** The size of what a collapsed card shows *)

Section Bounds.

Lemma text_from_length (markup : jsstring) (skip : nat) :
  List.length (text_from skip markup) <= List.length markup.
Proof.
  revert skip. induction markup as [|c r IH]; intros skip; [reflexivity|].
  cbn [text_from List.length].
  destruct skip as [|k].
  - destruct (reference_at references (c :: r)) as [[n d]|]; cbn [List.length];
      apply le_n_S, IH.
  - specialize (IH k). lia.
Qed.

Lemma toggles_no_button (c : card) (n : nat) :
  read_more_btn c = None -> toggles n c = c.
Proof.
  intros H. induction n as [|n IH]; [reflexivity|].
  cbn [toggles]. rewrite IH. unfold toggleReadMore. now rewrite H.
Qed.

Lemma toggles_even (a : Article) (n : nat) :
  needsReadMore a = true ->
  toggles (2 * S n) (createArticleCard a) = toggles 2 (createArticleCard a).
Proof.
  intros H. induction n as [|n IH]; [reflexivity|].
  replace (2 * S (S n)) with (S (S (S (S (2 * n))))) by lia.
  rewrite toggles_period by exact H.
  replace (S (S (2 * n))) with (2 * S n) by lia. exact IH.
Qed.

(** X21: a card that is collapsed, as created or after any even number
    of clicks, never shows more than 203 code units of content. *)
Theorem collapsed_card_bounded (a : Article) (n : nat) :
  List.length (displayed (toggles (2 * n) (createArticleCard a))) <= 203.
Proof.
  destruct (needsReadMore a) eqn:H.
  - assert (L : 200 < List.length (content a))
      by (unfold needsReadMore in H; now apply Nat.ltb_lt in H).
    destruct n as [|n].
    + change (2 * 0) with 0.
      unfold displayed, createArticleCard, shortContent.
      cbn [toggles innerHTML article_content].
      rewrite H, textContent_escapeHtml, length_app, length_substring0 by lia.
      reflexivity.
    + rewrite toggles_even by exact H. unfold displayed, textContent.
      destruct (toggle_twice_markup a H) as [_ ->].
      etransitivity; [apply text_from_length|].
      rewrite length_app. unfold substring0. rewrite length_firstn.
      change (List.length (str "...")) with 3. lia.
  - rewrite toggles_no_button
      by (unfold createArticleCard; cbn [read_more_btn]; now rewrite H).
    unfold displayed, createArticleCard. cbn [innerHTML article_content].
    rewrite H, textContent_escapeHtml.
    unfold needsReadMore in H. apply Nat.ltb_ge in H. lia.
Qed.

End Bounds.

(** ** What is inserted into the page *)

Section Insertion.

Lemma toggles_one_of_three (a : Article) (n : nat) :
  needsReadMore a = true ->
  toggles n (createArticleCard a) = createArticleCard a
  \/ toggles n (createArticleCard a) = toggles 1 (createArticleCard a)
  \/ toggles n (createArticleCard a) = toggles 2 (createArticleCard a).
Proof.
  intros H.
  assert (G : forall k,
             (k = 0 \/ toggles k (createArticleCard a)
                        = toggles 1 (createArticleCard a)
              \/ toggles k (createArticleCard a)
                 = toggles 2 (createArticleCard a))
             /\ (toggles (S k) (createArticleCard a)
                   = toggles 1 (createArticleCard a)
                 \/ toggles (S k) (createArticleCard a)
                    = toggles 2 (createArticleCard a))).
  { induction k as [|k [IH1 IH2]].
    - split; [now left | now left].
    - split; [now right|].
      destruct k as [|k]; [now right|].
      rewrite toggles_period by exact H.
      destruct IH1 as [E|IH1]; [discriminate | exact IH1]. }
  destruct (G n) as [[->|[E|E]] _]; [now left | now (right; left) | now (right; right)].
Qed.

Lemma toggles_keep_icon (n : nat) (c : card) :
  article_icon (toggles n c) = article_icon c.
Proof.
  induction n as [|n IH]; [reflexivity|]. cbn [toggles].
  destruct (toggleReadMore_keeps (toggles n c)) as (_ & I & _). congruence.
Qed.

(** C8: every piece of text of an article that the script inserts as
    markup has been through [escapeHtml] first.  Whatever the number
    of clicks, the title of the card is the escaped title; the markup
    of the content is the escaped content, the escaped first display,
    or the first 200 code units of the escaped content followed by
    three dots; the content kept on the button is the escaped content;
    and the icon, inserted as it is, holds nothing to escape.  None of
    these holds a [<] or a [>]: no text of an article can open or
    close a tag. *)
Theorem user_text_escaped_before_insertion (a : Article) (n : nat) :
  let c := toggles n (createArticleCard a) in
  article_title c = escapeHtml (title a)
  /\ (innerHTML (article_content c) = escapeHtml (content a)
      \/ innerHTML (article_content c)
         = escapeHtml (substring0 200 (content a) ++ str "...")
      \/ innerHTML (article_content c)
         = substring0 200 (escapeHtml (content a)) ++ str "...")
  /\ (forall b, read_more_btn c = Some b ->
                data_full_content b = escapeHtml (content a))
  /\ tag_free (article_title c) = true
  /\ tag_free (innerHTML (article_content c)) = true
  /\ plain (article_icon c) = true.
Proof.
  cbv zeta.
  destruct (toggles_keep n (createArticleCard a)) as [T B].
  split; [exact T|]. split; [|split; [|split; [|split]]].
  - destruct (needsReadMore a) eqn:H.
    + destruct (toggle_twice_markup a H) as [M0 M2].
      destruct (toggles_one_of_three a n H) as [E|[E|E]]; rewrite E.
      * right. left. exact M0.
      * left. unfold toggles, toggleReadMore, createArticleCard.
        rewrite H. reflexivity.
      * right. right. exact M2.
    + left. rewrite toggles_no_button
        by (unfold createArticleCard; cbn [read_more_btn]; now rewrite H).
      unfold createArticleCard. cbn [innerHTML article_content]. now rewrite H.
  - intros b E. rewrite E in B. unfold createArticleCard in B.
    cbn [read_more_btn] in B.
    destruct (needsReadMore a); cbn [option_map data_full_content] in B;
      [|discriminate].
    now injection B.
  - rewrite T. apply tag_free_escapeHtml.
  - apply toggles_tag_free.
  - rewrite toggles_keep_icon. unfold createArticleCard.
    cbn [article_icon]. unfold getArticleIcon.
    repeat match goal with
           | |- context [if ?b then _ else _] => destruct b
           end; reflexivity.
Qed.

End Insertion.
